(** * Affiliate manager: relevance scoring and HTML rewriting

    A shallow embedding of [scripts/affiliate_manager.py]: the product
    catalog, the relevance scorer [find_relevant_products] and the four
    rewriting steps that [process_content] chains
    ([insert_affiliate_links], [add_product_recommendations],
    [add_email_capture], [add_google_adsense_units]).

    Conventions of the embedding.
    - A Python [str] is a [string]. The embedding is exact on ASCII text,
      which is what the catalog, the generated links and the HTML tags are
      made of. The few non-ASCII characters of the fixed HTML blocks are
      carried as their UTF-8 bytes; [lower] leaves them alone and they are
      not word characters.
    - Python [int]s are [Z].
    - [self.products] and [self.config] are explicit arguments; the static
      table of [load_affiliate_products] is the value [load_affiliate_products].
    - Each regular expression of the source is embedded as the matcher it
      denotes under Python's leftmost, backtracking semantics; the comment
      of each matcher says how the pattern was read. *)

From Stdlib Require Import Strings.String Strings.Ascii List ZArith Bool Lia.
From Stdlib Require Import Sorting.Sorted Sorting.Permutation.
Import ListNotations.
Open Scope string_scope.

(** ** Python string operations *)

Module Str.

(** The double quote and the newline, which the HTML templates use. *)
Definition dq : string := String (ascii_of_nat 34) EmptyString.
Definition nl : string := String (ascii_of_nat 10) EmptyString.

(** [name="value"], as written in the HTML templates. *)
Definition attr (name value : string) : string :=
  name ++ "=" ++ dq ++ value ++ dq.

Definition in_range (lo hi : nat) (c : ascii) : bool :=
  let n := nat_of_ascii c in (lo <=? n)%nat && (n <=? hi)%nat.

Definition is_upper (c : ascii) : bool := in_range 65 90 c.
Definition is_lower (c : ascii) : bool := in_range 97 122 c.
Definition is_digit (c : ascii) : bool := in_range 48 57 c.

(** [str.lower], one character, for ASCII: the letters [A] to [Z] go to
    [a] to [z], every other character stays. (Python also maps letters
    outside ASCII; statements that depend on it ask for ASCII text.) *)
Definition lower_char (c : ascii) : ascii :=
  if is_upper c then ascii_of_nat (nat_of_ascii c + 32) else c.

(** [s.lower()] *)
Fixpoint lower (s : string) : string :=
  match s with
  | EmptyString => EmptyString
  | String c s' => String (lower_char c) (lower s')
  end.

(** [s.replace(a, b)] for one-character [a] and [b]. *)
Fixpoint replace_char (a b : ascii) (s : string) : string :=
  match s with
  | EmptyString => EmptyString
  | String c s' =>
      String (if Ascii.eqb c a then b else c) (replace_char a b s')
  end.

(** [s[n:]] *)
Fixpoint drop (n : nat) (s : string) : string :=
  match n, s with
  | O, _ => s
  | S _, EmptyString => EmptyString
  | S k, String _ s' => drop k s'
  end.

(** [s[:n]] *)
Fixpoint take (n : nat) (s : string) : string :=
  match n, s with
  | O, _ => EmptyString
  | S _, EmptyString => EmptyString
  | S k, String c s' => String c (take k s')
  end.

Definition head (s : string) : option ascii :=
  match s with
  | EmptyString => None
  | String c _ => Some c
  end.

(** Searching for a literal, with the character comparison as a parameter:
    [Ascii.eqb] for [str] methods and case-sensitive patterns, equality up
    to case for patterns compiled with [re.IGNORECASE]. *)
Section Find.

Variable eqc : ascii -> ascii -> bool.

(** Does [s] start with [p]? *)
Fixpoint starts_with_by (p s : string) : bool :=
  match p with
  | EmptyString => true
  | String a p' =>
      match s with
      | EmptyString => false
      | String b s' => eqc a b && starts_with_by p' s'
      end
  end.

(** The first occurrence of [needle] in [s]: the text before it, the text
    that matched, the text after it. *)
Fixpoint find_by (needle s : string) : option (string * string * string) :=
  if starts_with_by needle s
  then Some (EmptyString, take (String.length needle) s, drop (String.length needle) s)
  else
    match s with
    | EmptyString => None
    | String c s' =>
        match find_by needle s' with
        | Some (b, m, a) => Some (String c b, m, a)
        | None => None
        end
    end.

End Find.

Definition starts_with : string -> string -> bool := starts_with_by Ascii.eqb.
Definition find : string -> string -> option (string * string * string) :=
  find_by Ascii.eqb.

(** [needle in s] *)
Definition contains (needle s : string) : bool :=
  match find needle s with
  | Some _ => true
  | None => false
  end.

(** [s.split(sep)] for a non-empty [sep]: cut at the successive
    occurrences of [sep], left to right. Every cut leaves a strictly
    shorter rest, so [S (length s)] rounds are enough. *)
Fixpoint split_fuel (fuel : nat) (sep s : string) : list string :=
  match fuel with
  | O => [s]
  | S k =>
      match find sep s with
      | Some (b, _, a) => b :: split_fuel k sep a
      | None => [s]
      end
  end.

Definition split (sep s : string) : list string :=
  split_fuel (S (String.length s)) sep s.

(** [sep.join(parts)] *)
Definition join (sep : string) (parts : list string) : string :=
  String.concat sep parts.

(** [parts.insert(i, x)]: Python clamps an index past the end. *)
Fixpoint list_insert {A : Type} (i : nat) (x : A) (l : list A) : list A :=
  match i, l with
  | O, _ => x :: l
  | S _, [] => [x]
  | S k, y :: l' => y :: list_insert k x l'
  end.

(** [l[:n]] for a Python integer [n] (a negative [n] counts from the end). *)
Definition slice_to {A : Type} (n : Z) (l : list A) : list A :=
  if (0 <=? n)%Z then firstn (Z.to_nat n) l
  else firstn (List.length l - Z.to_nat (- n)) l.

End Str.

(** ** The regular expressions of the source *)

Module Re.

Import Str.

(** [\w] on ASCII text: letters, digits and the underscore. (Python also
    counts letters and digits outside ASCII as word characters;
    statements that depend on it ask for ASCII text.) *)
Definition is_word (c : ascii) : bool :=
  is_upper c || is_lower c || is_digit c || Ascii.eqb c "_"%char.

Definition is_word_opt (c : option ascii) : bool :=
  match c with
  | Some a => is_word a
  | None => false
  end.

(** [\b] between a character and the next one ([None] stands for either
    end of the text): exactly one of the two is a word character. *)
Definition boundary (before after : option ascii) : bool :=
  xorb (is_word_opt before) (is_word_opt after).

(** Character comparison under [re.IGNORECASE], for ASCII: equal up to
    the case of a letter. (Python also lets a few characters outside
    ASCII match [s], [i] and [k]; statements that depend on it ask for
    ASCII text.) *)
Definition eq_ci (a b : ascii) : bool :=
  Ascii.eqb (lower_char a) (lower_char b).

(** The escaped keyword, matched up to case at the start of [t]; [prev] is
    the character before [t]. Gives the matched text, the last character
    read (or [prev] when the keyword is empty) and the rest. *)
Fixpoint match_literal_ci (kw t : string) (prev : option ascii)
  : option (string * option ascii * string) :=
  match kw with
  | EmptyString => Some (EmptyString, prev, t)
  | String k kw' =>
      match t with
      | EmptyString => None
      | String c t' =>
          if eq_ci k c then
            match match_literal_ci kw' t' (Some c) with
            | Some (m, last, rest) => Some (String c m, last, rest)
            | None => None
            end
          else None
      end
  end.

(** [rf'\b{re.escape(kw)}\b'] with [re.IGNORECASE], tried at the start of
    [t]: a boundary, the keyword up to case, a boundary. *)
Definition match_word_at (kw : string) (prev : option ascii) (t : string)
  : option (string * string) :=
  if boundary prev (head t) then
    match match_literal_ci kw t prev with
    | Some (m, last, rest) =>
        if boundary last (head rest) then Some (m, rest) else None
    | None => None
    end
  else None.

(** [[m.group() for m in re.finditer(pattern, s, re.IGNORECASE)]]: the
    matches from left to right, without overlap. [skip] counts the
    characters still covered by the last match. *)
Fixpoint finditer_word (kw : string) (prev : option ascii) (skip : nat)
  (s : string) : list string :=
  match s with
  | EmptyString =>
      match skip, match_word_at kw prev EmptyString with
      | O, Some (m, _) => [m]
      | _, _ => []
      end
  | String c s' =>
      match skip with
      | S k => finditer_word kw (Some c) k s'
      | O =>
          match match_word_at kw prev s with
          | Some (m, _) =>
              m :: finditer_word kw (Some c) (String.length m - 1) s'
          | None => finditer_word kw (Some c) 0 s'
          end
      end
  end.

(** [re.search(pattern, s, re.IGNORECASE)]: the leftmost match, with the
    text before and after it. *)
Fixpoint search_word (kw : string) (prev : option ascii) (s : string)
  : option (string * string * string) :=
  match match_word_at kw prev s with
  | Some (m, rest) => Some (EmptyString, m, rest)
  | None =>
      match s with
      | EmptyString => None
      | String c s' =>
          match search_word kw (Some c) s' with
          | Some (b, m, a) => Some (String c b, m, a)
          | None => None
          end
      end
  end.

(** The character in front of the position that is reached by reading
    [s], when [prev] is the character in front of [s]. *)
Fixpoint char_before (prev : option ascii) (s : string) : option ascii :=
  match s with
  | EmptyString => prev
  | String c s' => char_before (Some c) s'
  end.

(** [re.sub(pattern, lambda m: repl, s, count=1, flags=re.IGNORECASE)] *)
Definition sub_word_first (kw repl s : string) : string :=
  match search_word kw None s with
  | Some (b, _, a) => b ++ repl ++ a
  | None => s
  end.

(** [r'(</h2>.*?<p>.*?</p>)'] with [re.DOTALL]. Both [.*?] are lazy and
    match anything, so the leftmost match starts at the first [</h2>],
    runs to the first [<p>] after it and ends with the first [</p>] after
    that; there is a match exactly when that chain exists. *)
Definition search_h2 (s : string) : option (string * string * string) :=
  match find "</h2>" s with
  | None => None
  | Some (b, h, r1) =>
      match find "<p>" r1 with
      | None => None
      | Some (g1, p, r2) =>
          match find "</p>" r2 with
          | None => None
          | Some (g2, q, a) => Some (b, h ++ g1 ++ p ++ g2 ++ q, a)
          end
      end
  end.

(** [re.sub(h2_pattern, '\\1' + ins, s, count=1, flags=re.DOTALL)]: group 1
    is the whole match, and [ins] has no backslash. *)
Definition sub_h2_first (ins s : string) : string :=
  match search_h2 s with
  | Some (b, m, a) => b ++ m ++ ins ++ a
  | None => s
  end.

(** The text up to the first newline, which is as far as [.] can read
    without [re.DOTALL]. *)
Definition first_line (s : string) : string :=
  match find nl s with
  | Some (b, _, _) => b
  | None => s
  end.

(** [r'(<h2[^>]*>.*?conclusion.*?</h2>)'] with [re.IGNORECASE], tried at
    the start of [t]; gives the length of the match. [[^>]*>] can only end
    at the first [>]; from there the two lazy [.*?] stay on one line and
    stop at the first [conclusion] and the first [</h2>] after it. *)
Definition conclusion_match_at (t : string) : option nat :=
  if starts_with_by eq_ci "<h2" t then
    match find ">" (drop 3 t) with
    | None => None
    | Some (attrs, _, r1) =>
        match find_by eq_ci "conclusion" (first_line r1) with
        | None => None
        | Some (g1, _, r2) =>
            match find_by eq_ci "</h2>" r2 with
            | None => None
            | Some (g2, _, _) =>
                Some (3 + String.length attrs + 1 + String.length g1 + 10
                      + String.length g2 + 5)
            end
        end
    end
  else None.

(** [re.search(conclusion_pattern, s, re.IGNORECASE)], as a truth value. *)
Fixpoint search_conclusion (s : string) : bool :=
  match conclusion_match_at s with
  | Some _ => true
  | None =>
      match s with
      | EmptyString => false
      | String _ s' => search_conclusion s'
      end
  end.

(** [re.sub(conclusion_pattern, ins + '\\1', s, flags=re.IGNORECASE)]
    for an [ins] without a backslash, which [re.sub] takes as it is: every
    match, left to right and without overlap, is kept and gets [ins] in
    front of it. (With a backslash in [ins] Python expands an escape or
    raises; statements about this substitution ask for a text without
    one.) [skip] counts the characters still covered by the last match. *)
Fixpoint sub_conclusion (ins : string) (skip : nat) (s : string) : string :=
  match s with
  | EmptyString => EmptyString
  | String c s' =>
      match skip with
      | S k => String c (sub_conclusion ins k s')
      | O =>
          match conclusion_match_at s with
          | Some n => ins ++ String c (sub_conclusion ins (n - 1) s')
          | None => String c (sub_conclusion ins 0 s')
          end
      end
  end.

End Re.

(** ** [urllib.parse.urlencode] *)

Module Url.

Import Str.

Definition hex_digit (n : nat) : ascii :=
  if (n <? 10)%nat then ascii_of_nat (48 + n) else ascii_of_nat (55 + n).

(** [quote_plus] on one character: unreserved characters stay, a space
    becomes [+], anything else is percent-encoded in upper-case hex. *)
Definition quote_char (c : ascii) : string :=
  if is_upper c || is_lower c || is_digit c
     || Ascii.eqb c "_"%char || Ascii.eqb c "."%char
     || Ascii.eqb c "-"%char || Ascii.eqb c "~"%char
  then String c EmptyString
  else if Ascii.eqb c " "%char then "+"
  else
    let n := nat_of_ascii c in
    String "%"%char
      (String (hex_digit (n / 16)) (String (hex_digit (n mod 16)) EmptyString)).

Fixpoint quote_plus (s : string) : string :=
  match s with
  | EmptyString => EmptyString
  | String c s' => quote_char c ++ quote_plus s'
  end.

(** [urlencode(params)] for a dict of strings, in insertion order. *)
Definition urlencode (params : list (string * string)) : string :=
  join "&" (map (fun kv => quote_plus (fst kv) ++ "=" ++ quote_plus (snd kv))
              params).

End Url.

(** ** Data model *)

(** [@dataclass AffiliateProduct] *)
Record AffiliateProduct : Type := {
  name : string;
  category : string;
  amazon_asin : string;
  clickbank_id : string;
  price_range : string;
  description : string;
  keywords : list string;
  amazon_url : string;
  clickbank_url : string
}.

(** The entries of [self.config] that the manager reads:
    [monetization.amazon_associates.associate_id],
    [monetization.affiliate_programs[0].get('clickbank_id')] (absent or
    present) and [monetization.google_adsense.enabled] and [.client_id]. *)
Record Config : Type := {
  associate_id : string;
  affiliate_clickbank_id : option string;
  adsense_enabled : bool;
  adsense_client_id : string
}.

(** One entry of the [inserted_links] list. *)
Record InsertedLink : Type := {
  link_product : string;
  link_category : string;
  link_url : string;
  link_position : string
}.

(** The [monetization_report] dict. *)
Record MonetizationReport : Type := {
  affiliate_links : list InsertedLink;
  email_captures : Z;
  ad_units : Z;
  product_recommendations : Z
}.

(** Truth value of a string: non-empty. *)
Definition truthy (s : string) : bool := negb (String.eqb s EmptyString).

(** ** The product catalog *)

Definition mk_product (n c asin cb price descr : string) (kws : list string)
  (aurl cburl : string) : AffiliateProduct :=
  {| name := n; category := c; amazon_asin := asin; clickbank_id := cb;
     price_range := price; description := descr; keywords := kws;
     amazon_url := aurl; clickbank_url := cburl |}.

Definition hatch_rest : AffiliateProduct :=
  mk_product "Hatch Baby Rest Sound Machine" "sound_machine" "B078K2XMJY" EmptyString
    "$60-80" "Smart sound machine with app control and night light"
    ["sound machine"; "white noise"; "night light"; "sleep environment"]
    "https://amazon.com/dp/B078K2XMJY" EmptyString.

Definition sleep_miracle_guide : AffiliateProduct :=
  mk_product "Baby Sleep Miracle Guide" "sleep_guide" EmptyString "babysleep1"
    "$37-47" "Complete baby sleep training system by clinical psychologist"
    ["sleep training"; "sleep guide"; "baby sleep method"; "sleep schedule"]
    EmptyString "https://babysleep.com/special-offer".

Definition zen_sack : AffiliateProduct :=
  mk_product "Nested Bean Zen Sack Sleep Sack" "sleep_sack" "B07QKZJ8Q1" EmptyString
    "$30-40" "Weighted sleep sack that mimics parent's touch"
    ["sleep sack"; "swaddle"; "weighted"; "safe sleep"]
    "https://amazon.com/dp/B07QKZJ8Q1" EmptyString.

Definition owlet_sock : AffiliateProduct :=
  mk_product "Owlet Smart Sock 3" "baby_monitor" "B077QNZ5DG" EmptyString
    "$250-300" "Smart baby monitor that tracks heart rate and oxygen"
    ["baby monitor"; "smart sock"; "heart rate"; "peace of mind"]
    "https://amazon.com/dp/B077QNZ5DG" EmptyString.

Definition happy_sleeper : AffiliateProduct :=
  mk_product "The Happy Sleeper Book" "sleep_book" "0143108808" EmptyString
    "$15-20" "Evidence-based approach to baby and toddler sleep"
    ["sleep book"; "sleep training book"; "gentle methods"]
    "https://amazon.com/dp/0143108808" EmptyString.

Definition blackout_curtains : AffiliateProduct :=
  mk_product "Blackout Curtains for Nursery" "room_darkening" "B07GXZQ8VG" EmptyString
    "$25-35" "Room darkening curtains for better baby sleep"
    ["blackout curtains"; "room darkening"; "sleep environment"]
    "https://amazon.com/dp/B07GXZQ8VG" EmptyString.

Definition baby_shusher : AffiliateProduct :=
  mk_product "Baby Shusher Sleep Miracle" "sound_machine" "B00D2JN87I" EmptyString
    "$35-45" "Rhythmic shushing sound to soothe babies to sleep"
    ["shusher"; "soothing sounds"; "baby sleep aid"]
    "https://amazon.com/dp/B00D2JN87I" EmptyString.

Definition marpac_dohm : AffiliateProduct :=
  mk_product "Marpac Dohm White Noise Machine" "sound_machine" "B000KUHFGM" EmptyString
    "$45-55" "Natural white noise machine with adjustable tone"
    ["white noise machine"; "natural sound"; "sleep machine"]
    "https://amazon.com/dp/B000KUHFGM" EmptyString.

(** [load_affiliate_products]: the static table, in catalog order. *)
Definition load_affiliate_products : list AffiliateProduct :=
  [hatch_rest; sleep_miracle_guide; zen_sack; owlet_sock; happy_sleeper;
   blackout_curtains; baby_shusher; marpac_dohm].

(** ** Affiliate links *)

(** [generate_amazon_link(asin, keyword)] *)
Definition generate_amazon_link (cfg : Config) (asin keyword : string)
  : string :=
  let base_url := "https://www.amazon.com/dp/" ++ asin in
  let params :=
    ([("tag", associate_id cfg); ("linkCode", "as2"); ("camp", "1789");
      ("creative", "9325")]
     ++ (if truthy keyword then [("keywords", keyword)] else []))%list in
  base_url ++ "?" ++ Url.urlencode params.

(** [generate_clickbank_link(product_id, tid)] *)
Definition generate_clickbank_link (cfg : Config) (product_id tid : string)
  : string :=
  let tid := if truthy tid then tid else "default" in
  "https://hop.clickbank.net/?affiliate="
  ++ match affiliate_clickbank_id cfg with
     | Some a => a
     | None => "defaultid"
     end
  ++ "&vendor=" ++ product_id ++ "&tid=" ++ tid.

(** ** The relevance scorer *)

(** The body of the loop over one product in [find_relevant_products]:
    a point for each keyword whose lower-case form occurs in the lowered
    content, two more when the category occurs in it. *)
Definition relevance_score (product : AffiliateProduct)
  (content_lower : string) : Z :=
  let relevance_score :=
    fold_left
      (fun score keyword =>
         if Str.contains (Str.lower keyword) content_lower
         then (score + 1)%Z else score)
      (keywords product) 0%Z in
  if Str.contains (Str.replace_char "_" " " (category product)) content_lower
  then (relevance_score + 2)%Z
  else relevance_score.

(** [list.sort(key=lambda x: x[1], reverse=True)]: a stable sort by
    descending score; an element goes in front of the first one whose
    score is not larger, so equal scores keep their order. *)
Fixpoint insert_desc {A : Type} (x : A * Z) (l : list (A * Z))
  : list (A * Z) :=
  match l with
  | [] => [x]
  | y :: l' =>
      if (snd y <=? snd x)%Z then x :: l else y :: insert_desc x l'
  end.

Definition sort_desc {A : Type} (l : list (A * Z)) : list (A * Z) :=
  fold_right insert_desc [] l.

(** The list [relevant_products] when the loop over the catalog ends. *)
Definition scored_products (products : list AffiliateProduct)
  (content_lower : string) : list (AffiliateProduct * Z) :=
  fold_left
    (fun relevant_products product =>
       let score := relevance_score product content_lower in
       if (0 <? score)%Z
       then (relevant_products ++ [(product, score)])%list
       else relevant_products)
    products [].

(** [find_relevant_products(content, max_products)] *)
Definition find_relevant_products (products : list AffiliateProduct)
  (content : string) (max_products : Z) : list AffiliateProduct :=
  let content_lower := Str.lower content in
  let relevant_products := scored_products products content_lower in
  map fst (Str.slice_to max_products (sort_desc relevant_products)).

(** The default of the [max_products] parameter. *)
Definition default_max_products : Z := 3.

(** ** Link insertion *)

(** [find_insertion_points(content, product)] *)
Definition find_insertion_points (content : string)
  (product : AffiliateProduct) : list string :=
  firstn 2
    (flat_map (fun keyword => Re.finditer_word keyword None 0 content)
       (keywords product)).

(** [insert_link_at_position(content, search_term, link_text, product)] *)
Definition insert_link_at_position (content search_term link_text : string)
  (product : AffiliateProduct) : string :=
  Re.sub_word_first search_term link_text content.

(** The link chosen in the body of the inner loop, or [None] where the
    source says [continue]. [product.keywords[0]] is read only when a
    keyword has matched, so the list is not empty there. *)
Definition product_link (cfg : Config) (product : AffiliateProduct)
  : option string :=
  if truthy (amazon_asin product)
  then Some (generate_amazon_link cfg (amazon_asin product)
               (hd EmptyString (keywords product)))
  else if truthy (clickbank_id product)
  then Some (generate_clickbank_link cfg (clickbank_id product) EmptyString)
  else None.

(** [f'<a href="{link}" target="_blank" rel="noopener">{product.name}</a>'] *)
Definition link_text (link : string) (product : AffiliateProduct) : string :=
  "<a " ++ Str.attr "href" link ++ " " ++ Str.attr "target" "_blank" ++ " "
  ++ Str.attr "rel" "noopener" ++ ">" ++ name product ++ "</a>".

(** One round of the inner loop of [insert_affiliate_links]. *)
Definition insert_point (cfg : Config) (product : AffiliateProduct)
  (st : string * list InsertedLink) (point : string)
  : string * list InsertedLink :=
  match product_link cfg product with
  | None => st
  | Some link =>
      (insert_link_at_position (fst st) point (link_text link product) product,
       (snd st ++ [{| link_product := name product;
                      link_category := category product;
                      link_url := link;
                      link_position := point |}])%list)
  end.

(** One round of the outer loop: the insertion points are looked up in the
    content as the earlier products left it. *)
Definition insert_product (cfg : Config) (st : string * list InsertedLink)
  (product : AffiliateProduct) : string * list InsertedLink :=
  fold_left (insert_point cfg product)
    (find_insertion_points (fst st) product) st.

(** [insert_affiliate_links(content)] *)
Definition insert_affiliate_links (cfg : Config)
  (products : list AffiliateProduct) (content : string)
  : string * list InsertedLink :=
  let relevant_products :=
    find_relevant_products products content default_max_products in
  fold_left (insert_product cfg) relevant_products (content, []).

(** ** The fixed HTML blocks *)

(** A triple-quoted template, line by line. *)
Definition lines (l : list string) : string := String.concat Str.nl l.

(** Characters given by their byte values. *)
Fixpoint bytes (l : list nat) : string :=
  match l with
  | [] => EmptyString
  | n :: l' => String (ascii_of_nat n) (bytes l')
  end.

(** The decorations in the headings and on the buttons, as the bytes of
    the source file. *)
Definition bulb_mark : string := bytes [239; 163; 191; 195; 188; 195; 173; 194; 176].
Definition mail_mark : string := bytes [239; 163; 191; 195; 188; 195; 169; 195; 133].
Definition arrow_mark : string := bytes [226; 128; 154; 195; 156; 195; 173].

(** The card of one product in [generate_recommendation_section], or
    nothing where the source says [continue]. *)
Definition product_card (cfg : Config) (product : AffiliateProduct) : string :=
  let card (link platform : string) :=
    lines
      [ EmptyString;
        "        <div " ++ Str.attr "class" "product-card" ++ ">";
        "            <h3>" ++ name product ++ "</h3>";
        "            <p " ++ Str.attr "class" "price" ++ ">"
          ++ price_range product ++ "</p>";
        "            <p " ++ Str.attr "class" "description" ++ ">"
          ++ description product ++ "</p>";
        "            <a " ++ Str.attr "href" link ++ " "
          ++ Str.attr "class" "btn btn-affiliate" ++ " "
          ++ Str.attr "target" "_blank" ++ " "
          ++ Str.attr "rel" "noopener" ++ ">";
        "                View on " ++ platform ++ " " ++ arrow_mark;
        "            </a>";
        "            <small " ++ Str.attr "class" "affiliate-disclosure"
          ++ ">As an Amazon Associate, we earn from qualifying purchases.</small>";
        "        </div>";
        EmptyString ] in
  if truthy (amazon_asin product)
  then card (generate_amazon_link cfg (amazon_asin product) EmptyString)
         "Amazon"
  else if truthy (clickbank_id product)
  then card (generate_clickbank_link cfg (clickbank_id product) EmptyString)
         "Get Guide"
  else EmptyString.

Definition recommendation_header : string :=
  lines
    [ EmptyString;
      "<div " ++ Str.attr "class" "product-recommendations" ++ ">";
      "    <h2>" ++ bulb_mark
        ++ " Recommended Products to Help Your Baby Sleep Better</h2>";
      "    <p>Based on the tips in this article, here are some products that many parents find helpful:</p>";
      "    <div " ++ Str.attr "class" "product-grid" ++ ">";
      EmptyString ].

Definition recommendation_footer : string :=
  lines [ EmptyString; "    </div>"; "</div>"; EmptyString ].

(** [generate_recommendation_section(products)] *)
Definition generate_recommendation_section (cfg : Config)
  (products : list AffiliateProduct) : string :=
  fold_left (fun html product => html ++ product_card cfg product)
    products recommendation_header
  ++ recommendation_footer.

(** [email_capture_html] in [add_email_capture]. *)
Definition email_capture_html : string :=
  lines
    [ EmptyString;
      "<div " ++ Str.attr "class" "email-capture-box" ++ ">";
      "    <div " ++ Str.attr "class" "email-capture-content" ++ ">";
      "        <h3>" ++ mail_mark
        ++ " Get Your FREE Baby Sleep Schedule Template</h3>";
      "        <p>Join over 10,000 parents who've downloaded our proven sleep schedule guide. Perfect for babies 0-12 months!</p>";
      "        <form " ++ Str.attr "class" "email-form" ++ " "
        ++ Str.attr "action" "/subscribe" ++ " "
        ++ Str.attr "method" "POST" ++ ">";
      "            <input " ++ Str.attr "type" "email" ++ " "
        ++ Str.attr "name" "email" ++ " "
        ++ Str.attr "placeholder" "Your email address" ++ " required>";
      "            <input " ++ Str.attr "type" "hidden" ++ " "
        ++ Str.attr "name" "lead_magnet" ++ " "
        ++ Str.attr "value" "sleep_schedule_template" ++ ">";
      "            <button " ++ Str.attr "type" "submit" ++ " "
        ++ Str.attr "class" "btn btn-primary" ++ ">Get My Free Template "
        ++ arrow_mark ++ "</button>";
      "        </form>";
      "        <small>We respect your privacy. Unsubscribe anytime.</small>";
      "    </div>";
      "</div>";
      EmptyString ].

(** [in_article_ad] in [add_google_adsense_units]. *)
Definition in_article_ad (client_id : string) : string :=
  lines
    [ EmptyString;
      "<div " ++ Str.attr "class" "ad-container in-article-ad" ++ ">";
      "    <ins " ++ Str.attr "class" "adsbygoogle";
      "         " ++ Str.attr "style" "display:block; text-align:center;";
      "         " ++ Str.attr "data-ad-layout" "in-article";
      "         " ++ Str.attr "data-ad-format" "fluid";
      "         " ++ Str.attr "data-ad-client" client_id;
      "         " ++ Str.attr "data-ad-slot" "1234567891" ++ "></ins>";
      "    <script>";
      "         (adsbygoogle = window.adsbygoogle || []).push({});";
      "    </script>";
      "</div>";
      EmptyString ].

(** ** The three block insertions *)

(** [add_product_recommendations(content)]. The replacement template is
    the rendered block, two newlines and group 1; the block is taken as it
    is, which is what [re.sub] does with a template free of backslashes.
    The block holds the configured ClickBank identifier and fields of the
    products; statements about this step ask that these have no
    backslash. *)
Definition add_product_recommendations (cfg : Config)
  (products : list AffiliateProduct) (content : string) : string :=
  let relevant_products := find_relevant_products products content 3 in
  match relevant_products with
  | [] => content
  | _ :: _ =>
      let recommendation_html :=
        generate_recommendation_section cfg relevant_products in
      if Re.search_conclusion content
      then Re.sub_conclusion (recommendation_html ++ Str.nl ++ Str.nl) 0 content
      else content ++ Str.nl ++ Str.nl ++ recommendation_html
  end.

(** [add_email_capture(content)] *)
Definition add_email_capture (content : string) : string :=
  match Re.search_h2 content with
  | Some _ => Re.sub_h2_first (Str.nl ++ Str.nl ++ email_capture_html) content
  | None => content
  end.

(** [add_google_adsense_units(content)] *)
Definition add_google_adsense_units (cfg : Config) (content : string)
  : string :=
  if negb (adsense_enabled cfg) then content
  else
    let client_id := adsense_client_id cfg in
    let paragraphs := Str.split "</p>" content in
    if (3 <=? List.length paragraphs)%nat
    then Str.join "</p>"
           (Str.list_insert 2 (in_article_ad client_id ++ "</p>") paragraphs)
    else content.

(** ** The pipeline *)

(** [len(content) > original_length], as the flag it sets. *)
Definition grew (original content : string) : Z :=
  if (String.length original <? String.length content)%nat then 1%Z else 0%Z.

(** [process_content(content)] *)
Definition process_content (cfg : Config) (products : list AffiliateProduct)
  (content : string) : string * MonetizationReport :=
  let '(content1, links) := insert_affiliate_links cfg products content in
  let content2 := add_product_recommendations cfg products content1 in
  let content3 := add_email_capture content2 in
  let content4 := add_google_adsense_units cfg content3 in
  (content4,
   {| affiliate_links := links;
      email_captures := grew content2 content3;
      ad_units := grew content3 content4;
      product_recommendations := grew content1 content2 |}).

(** ** Definitions used to state the properties *)

(** The number of places where [needle] occurs in [s], counted as
    [str.count] does (left to right, without overlap). *)
Definition occurrences (needle s : string) : nat :=
  List.length (Str.split needle s) - 1.

(** Does the lowered content contain a keyword of some product of the
    catalog, ignoring case? *)
Definition mentions_keyword (products : list AffiliateProduct)
  (content : string) : bool :=
  existsb
    (fun product =>
       existsb
         (fun keyword => Str.contains (Str.lower keyword) (Str.lower content))
         (keywords product))
    products.

(** The keywords of a product that occur in the lowered content. *)
Definition matched_keywords (product : AffiliateProduct)
  (content_lower : string) : list string :=
  filter (fun keyword => Str.contains (Str.lower keyword) content_lower)
    (keywords product).

(** The two points that the category is worth. *)
Definition category_bonus (product : AffiliateProduct)
  (content_lower : string) : Z :=
  if Str.contains (Str.replace_char "_" " " (category product)) content_lower
  then 2%Z else 0%Z.

(** The score as the specification words it: a point for each keyword
    that matches in the content ignoring case and at word boundaries, and
    two points for the category. *)
Definition spec_relevance_score (product : AffiliateProduct)
  (content : string) : Z :=
  (Z.of_nat
     (List.length
        (filter
           (fun keyword =>
              match Re.search_word keyword None content with
              | Some _ => true
              | None => false
              end)
           (keywords product)))
   + category_bonus product (Str.lower content))%Z.

(** What the ad-unit step inserts: the snippet, the [</p>] that the source
    appends to it, and the separator that [join] adds behind it. *)
Definition ad_block (cfg : Config) : string :=
  in_article_ad (adsense_client_id cfg) ++ "</p>" ++ "</p>".

(** What the email-capture step inserts behind the match. *)
Definition email_block : string := Str.nl ++ Str.nl ++ email_capture_html.

(** The conditions under which each step reaches its insertion. *)
Definition recommendations_inserted (products : list AffiliateProduct)
  (content : string) : Prop :=
  find_relevant_products products content 3 <> [].

Definition email_capture_inserted (content : string) : Prop :=
  Re.search_h2 content <> None.

Definition ad_unit_inserted (cfg : Config) (content : string) : Prop :=
  adsense_enabled cfg = true
  /\ (3 <= List.length (Str.split "</p>" content))%nat.

(** The pairs that one keeps when one scores every product and drops the
    scores that are not positive. *)
Definition positive_scores (products : list AffiliateProduct)
  (content_lower : string) : list (AffiliateProduct * Z) :=
  filter (fun ps => (0 <? snd ps)%Z)
    (map (fun product => (product, relevance_score product content_lower))
       products).

(** The order of the ranking: the later element does not score higher. *)
Definition by_score_desc {A : Type} (a b : A * Z) : Prop :=
  (snd b <= snd a)%Z.

(** Is the category of [product], with spaces, the lower-case form of a
    keyword of some product of the catalog? *)
Definition category_is_keyword (products : list AffiliateProduct)
  (product : AffiliateProduct) : bool :=
  existsb
    (fun q =>
       existsb
         (fun keyword =>
            String.eqb (Str.lower keyword)
              (Str.replace_char "_" " " (category product)))
         (keywords q))
    products.

(** ** Sample inputs *)

(** A configuration with ads switched on and every identifier filled in. *)
Definition sample_config : Config :=
  {| associate_id := "babysleep-20";
     affiliate_clickbank_id := Some "sleepaff";
     adsense_enabled := true;
     adsense_client_id := "ca-pub-1234567890" |}.

(** The same configuration with an empty ad client identifier. *)
Definition no_client_config : Config :=
  {| associate_id := "babysleep-20";
     affiliate_clickbank_id := Some "sleepaff";
     adsense_enabled := true;
     adsense_client_id := EmptyString |}.

(** The end-to-end example of the specification. *)
Definition sleep_environment_post : string :=
  "<h2>Sleep Environment</h2><p>A white noise machine helps.</p>".

(** A post in which the white noise machine outranks the sound machine
    whose keyword [white noise] is part of its name. *)
Definition natural_sound_post : string :=
  "<p>A white noise machine gives a natural sound.</p>".

Definition three_paragraphs : string := "<p>a</p><p>b</p><p>c</p>".

Definition one_section : string := "<h2>T</h2><p>x</p>".

(** A post that has a keyword only as a fragment of a longer word. *)
Definition unweighted_post : string := "<p>An unweighted blanket.</p>".

(** A post with two keywords of the sound machine, one of which is also
    its category. *)
Definition night_light_post : string :=
  "<p>A sound machine with a night light.</p>".

(** A post that mentions nothing of the catalog. *)
Definition plain_post : string := "<p>Hello world.</p>".

Definition two_paragraphs : string := "<p>a</p><p>b".

(** ** Definitions used to state further properties *)

(** Does every character of [s] pass the test [f]? *)
Fixpoint all_chars (f : ascii -> bool) (s : string) : bool :=
  match s with
  | EmptyString => true
  | String c s' => f c && all_chars f s'
  end.

(** The characters a query string built by [urlencode] is made of:
    letters, digits, the unreserved marks, [+] for a space, [%] before a
    hex pair, and the [=] and [&] that separate names and values. *)
Definition url_safe_char (c : ascii) : bool :=
  Str.is_upper c || Str.is_lower c || Str.is_digit c
  || Ascii.eqb c "_"%char || Ascii.eqb c "."%char
  || Ascii.eqb c "-"%char || Ascii.eqb c "~"%char
  || Ascii.eqb c "+"%char || Ascii.eqb c "%"%char
  || Ascii.eqb c "="%char || Ascii.eqb c "&"%char.

(** The characters that would end an attribute value or a tag: the double
    quote, the angle brackets and the space. *)
Definition breaks_attribute (c : ascii) : bool :=
  Ascii.eqb c (ascii_of_nat 34) || Ascii.eqb c "<"%char
  || Ascii.eqb c ">"%char || Ascii.eqb c " "%char.

Definition not_upper (c : ascii) : bool := negb (Str.is_upper c).

(** [Spliced block n s s']: the text [s'] is the text [s] with [n] copies
    of [block] put in at some places, and nothing else changed. *)
Inductive Spliced (block : string) : nat -> string -> string -> Prop :=
| spliced_done (s : string) : Spliced block 0 s s
| spliced_char (n : nat) (c : ascii) (s s' : string) :
    Spliced block n s s' -> Spliced block n (String c s) (String c s')
| spliced_block (n : nat) (s s' : string) :
    Spliced block n s s' -> Spliced block (S n) s (block ++ s').

(** A report entry that belongs to [product]: its name, its category and
    the link that the configuration generates for it. *)
Definition entry_of (cfg : Config) (product : AffiliateProduct)
  (entry : InsertedLink) : Prop :=
  link_product entry = name product
  /\ link_category entry = category product
  /\ product_link cfg product = Some (link_url entry).

(** A product with neither an Amazon ASIN nor a ClickBank id. *)
Definition no_identifier (product : AffiliateProduct) : Prop :=
  amazon_asin product = EmptyString /\ clickbank_id product = EmptyString.

(** A product like the first of the catalog, with a capitalised
    category. *)
Definition capitalised_category_product : AffiliateProduct :=
  mk_product "Hatch Baby Rest Sound Machine" "Sound_Machine" "B078K2XMJY"
    EmptyString "$60-80" "Smart sound machine with app control and night light"
    ["sound machine"; "white noise"; "night light"; "sleep environment"]
    "https://amazon.com/dp/B078K2XMJY" EmptyString.

(** A product like the sleep sack, with both identifiers missing. *)
Definition unlisted_product : AffiliateProduct :=
  mk_product "Nested Bean Zen Sack Sleep Sack" "sleep_sack" EmptyString
    EmptyString "$30-40" "Weighted sleep sack that mimics parent's touch"
    ["sleep sack"; "swaddle"; "weighted"; "safe sleep"]
    EmptyString EmptyString.

(** ** Definitions used to state the domain of the embedding *)

(** Text made of ASCII characters only. On such text [Str.lower],
    [Re.eq_ci] and [Re.is_word] are exactly Python's [str.lower], the
    comparison of [re.IGNORECASE] and [\w]; on other text Python also
    folds and classifies characters that the embedding leaves alone. *)
Definition is_ascii_char (c : ascii) : bool := (nat_of_ascii c <? 128)%nat.

Definition ascii_text (s : string) : bool := all_chars is_ascii_char s.

(** Text without a backslash. [re.sub] reads a replacement string as a
    template and expands the escapes in it; a text without a backslash is
    taken as it is. *)
Definition no_backslash (s : string) : bool :=
  all_chars (fun c => negb (Ascii.eqb c (ascii_of_nat 92))) s.

(** A configuration and a catalog from which no backslash can get into
    the recommendation block: none in the ClickBank affiliate identifier
    and none in the fields of a product that the block shows. (The
    associate identifier goes through [urlencode].) *)
Definition backslash_free (cfg : Config) (products : list AffiliateProduct)
  : bool :=
  match affiliate_clickbank_id cfg with
  | Some a => no_backslash a
  | None => true
  end
  && forallb
       (fun product =>
          no_backslash (name product)
          && no_backslash (price_range product)
          && no_backslash (description product)
          && no_backslash (amazon_asin product)
          && no_backslash (clickbank_id product))
       products.

(** Does a keyword of some product of the catalog match in the content,
    ignoring case and at word boundaries, as the pattern of
    [find_insertion_points] matches? *)
Definition mentions_keyword_word (products : list AffiliateProduct)
  (content : string) : bool :=
  existsb
    (fun product =>
       existsb
         (fun keyword =>
            match Re.search_word keyword None content with
            | Some _ => true
            | None => false
            end)
         (keywords product))
    products.

(** ** Definitions used to state what link insertion does *)

(** An anchor with a given target and a given visible text. *)
Definition anchor (url visible : string) : string :=
  "<a " ++ Str.attr "href" url ++ " " ++ Str.attr "target" "_blank" ++ " "
  ++ Str.attr "rel" "noopener" ++ ">" ++ visible ++ "</a>".

(** [Replaced phrase url visible c c']: the text [c'] is the text [c] with
    the leftmost match of [phrase] (ignoring case, at word boundaries) cut
    out and an anchor that shows [visible] put in its place; or the phrase
    matches nowhere and [c'] is [c]. *)
Inductive Replaced (phrase url visible : string) : string -> string -> Prop :=
| replaced_first (b m a : string) :
    Re.search_word phrase None (b ++ m ++ a) = Some (b, m, a) ->
    Replaced phrase url visible (b ++ m ++ a) (b ++ anchor url visible ++ a)
| replaced_nowhere (c : string) :
    Re.search_word phrase None c = None ->
    Replaced phrase url visible c c.

(** [Replayed c entries c']: the text [c'] comes from the text [c] by one
    replacement for each entry of the report, in the order of the report:
    the phrase of the entry gives way to an anchor that leads to the link
    of the entry and shows the product name of the entry. *)
Inductive Replayed : string -> list InsertedLink -> string -> Prop :=
| replayed_nil (c : string) : Replayed c [] c
| replayed_cons (c c' c'' : string) (entry : InsertedLink)
    (entries : list InsertedLink) :
    Replaced (link_position entry) (link_url entry) (link_product entry)
      c c' ->
    Replayed c' entries c'' ->
    Replayed c (entry :: entries) c''.

(** The entries that one product contributes to the report, one for each
    of its insertion points. *)
Definition entries_for (product : AffiliateProduct) (link : string)
  (points : list string) : list InsertedLink :=
  map
    (fun point =>
       {| link_product := name product;
          link_category := category product;
          link_url := link;
          link_position := point |})
    points.

(** [Linked cfg c ranked entries c']: going through the ranked products in
    order, a product without an identifier is passed over; for a product
    with one, the insertion points are looked up in the content as the
    earlier products left it, each of them gives an entry of the report,
    and the content is rewritten once for each entry. *)
Inductive Linked (cfg : Config)
  : string -> list AffiliateProduct -> list InsertedLink -> string -> Prop :=
| linked_nil (c : string) : Linked cfg c [] [] c
| linked_skip (c c' : string) (product : AffiliateProduct)
    (ranked : list AffiliateProduct) (entries : list InsertedLink) :
    product_link cfg product = None ->
    Linked cfg c ranked entries c' ->
    Linked cfg c (product :: ranked) entries c'
| linked_product (c c1 c' : string) (product : AffiliateProduct)
    (ranked : list AffiliateProduct) (link : string)
    (entries : list InsertedLink) :
    product_link cfg product = Some link ->
    Replayed c (entries_for product link (find_insertion_points c product))
      c1 ->
    Linked cfg c1 ranked entries c' ->
    Linked cfg c (product :: ranked)
      (entries_for product link (find_insertion_points c product)
       ++ entries)%list
      c'.

(** ** Definitions used to state that a block is in the output *)


(** The recommendation section for a list of products, piece by piece: the
    heading, one card for each product that has an identifier, in the
    order of the list, and the closing tags. *)
Definition rendered_section (cfg : Config) (products : list AffiliateProduct)
  : string :=
  recommendation_header
  ++ fold_right (fun product rest => product_card cfg product ++ rest)
       recommendation_footer products.


(** ** Facts about strings *)

Lemma append_assoc (s1 s2 s3 : string) : (s1 ++ s2) ++ s3 = s1 ++ s2 ++ s3.
Proof.
  induction s1 as [|c s1 IH]; simpl; [reflexivity|now rewrite IH].
Qed.

Lemma append_nil_r (s : string) : s ++ EmptyString = s.
Proof.
  induction s as [|c s IH]; simpl; [reflexivity|now rewrite IH].
Qed.

Lemma length_append (s1 s2 : string) :
  String.length (s1 ++ s2) = String.length s1 + String.length s2.
Proof.
  induction s1 as [|c s1 IH]; simpl; [reflexivity|now rewrite IH].
Qed.

Lemma take_drop (n : nat) (s : string) : Str.take n s ++ Str.drop n s = s.
Proof.
  revert s; induction n as [|n IH]; intros [|c s]; simpl; try reflexivity.
  now rewrite IH.
Qed.

Lemma take_append_exact (m a : string) :
  Str.take (String.length m) (m ++ a) = m.
Proof.
  induction m as [|c m IH]; simpl; [now destruct a|now rewrite IH].
Qed.

Lemma drop_append_exact (m a : string) :
  Str.drop (String.length m) (m ++ a) = a.
Proof.
  induction m as [|c m IH]; simpl; [reflexivity|exact IH].
Qed.

Section FindFacts.

Variable eqc : ascii -> ascii -> bool.

Lemma starts_with_by_take (p s : string) :
  Str.starts_with_by eqc p s = true ->
  String.length (Str.take (String.length p) s) = String.length p.
Proof.
  revert s; induction p as [|a p IH]; intros [|b s]; simpl; try easy.
  intros H. apply andb_true_iff in H as [_ H]. now rewrite IH.
Qed.

(** Whether [s] starts with [p] is decided by the first [length p]
    characters. *)
Lemma starts_with_by_append (p x y y' : string) :
  (String.length p <= String.length x)%nat ->
  Str.starts_with_by eqc p (x ++ y) = Str.starts_with_by eqc p (x ++ y').
Proof.
  revert x; induction p as [|a p IH]; intros [|b x]; simpl; intros H;
    try reflexivity; try lia.
  rewrite (IH x) by lia. reflexivity.
Qed.

(** A successful search cuts the text in three. *)
Lemma find_by_split (needle s b m a : string) :
  Str.find_by eqc needle s = Some (b, m, a) ->
  s = b ++ m ++ a /\ String.length m = String.length needle.
Proof.
  revert b; induction s as [|c s IH]; intros b; simpl.
  - destruct (Str.starts_with_by eqc needle EmptyString) eqn:E; [|discriminate].
    intros [= <- <- <-]. destruct needle; [now split|discriminate].
  - destruct (Str.starts_with_by eqc needle (String c s)) eqn:E.
    + intros [= <- <- <-]. split.
      * simpl. symmetry. apply take_drop.
      * now apply starts_with_by_take.
    + destruct (Str.find_by eqc needle s) as [[[b' m'] a']|] eqn:F;
        [|discriminate].
      intros [= <- <- <-]. destruct (IH b' eq_refl) as [-> Hlen].
      now split.
Qed.

(** The first occurrence does not depend on what follows it. *)
Lemma find_by_stable (needle s b m a : string) :
  Str.find_by eqc needle s = Some (b, m, a) ->
  forall a', Str.find_by eqc needle (b ++ m ++ a') = Some (b, m, a').
Proof.
  revert b; induction s as [|c s IH]; intros b H a'.
  - simpl in H.
    destruct (Str.starts_with_by eqc needle EmptyString) eqn:E; [|discriminate].
    injection H as <- <- <-. destruct needle; [|discriminate].
    simpl. now destruct a'.
  - pose proof (find_by_split _ _ _ _ _ H) as [Hs Hlen].
    simpl in H.
    destruct (Str.starts_with_by eqc needle (String c s)) eqn:E.
    + injection H as <- Hm Ha. simpl in Hs. change (EmptyString ++ m ++ a') with (m ++ a').
      assert (E' : Str.starts_with_by eqc needle (m ++ a') = true).
      { rewrite (starts_with_by_append needle m a' a) by lia.
        now rewrite <- Hs. }
      destruct (m ++ a') as [|c' t] eqn:Et.
      * simpl. rewrite E'. destruct needle; [|discriminate].
        destruct m; [|discriminate]. simpl in Et. now subst a'.
      * simpl. simpl in E'. rewrite E'. rewrite <- Et, <- Hlen.
        now rewrite take_append_exact, drop_append_exact.
    + destruct (Str.find_by eqc needle s) as [[[b' m'] a0]|] eqn:F;
        [|discriminate].
      injection H as <- <- <-. simpl.
      assert (E' : Str.starts_with_by eqc needle (String c (b' ++ m' ++ a'))
                   = false).
      { rewrite <- E, Hs.
        change (String c (b' ++ m' ++ a')) with (String c b' ++ m' ++ a').
        change (String c (b' ++ m' ++ a0)) with (String c b' ++ m' ++ a0).
        rewrite <- !append_assoc.
        apply starts_with_by_append. rewrite length_append. lia. }
      simpl in E'. rewrite E'. now rewrite (IH b' eq_refl a').
Qed.

End FindFacts.

(** With exact comparison the matched text is the needle itself. *)
Lemma starts_with_take (p s : string) :
  Str.starts_with p s = true -> Str.take (String.length p) s = p.
Proof.
  unfold Str.starts_with.
  revert s; induction p as [|a p IH]; intros [|b s]; simpl; try easy.
  intros H. apply andb_true_iff in H as [Hab H].
  apply Ascii.eqb_eq in Hab as ->. now rewrite IH.
Qed.

Lemma find_matched (needle s b m a : string) :
  Str.find needle s = Some (b, m, a) -> m = needle.
Proof.
  unfold Str.find.
  revert b; induction s as [|c s IH]; intros b; simpl.
  - destruct (Str.starts_with_by Ascii.eqb needle EmptyString) eqn:E; [|discriminate].
    intros [= <- <- <-]. now destruct needle.
  - destruct (Str.starts_with_by Ascii.eqb needle (String c s)) eqn:E.
    + intros [= <- <- <-]. now apply starts_with_take.
    + destruct (Str.find_by Ascii.eqb needle s) as [[[b' m'] a']|] eqn:F;
        [|discriminate].
      intros [= <- <- <-]. now apply (IH b').
Qed.

Lemma find_split (needle s b m a : string) :
  Str.find needle s = Some (b, m, a) -> s = b ++ needle ++ a.
Proof.
  intros H. rewrite <- (find_matched _ _ _ _ _ H).
  now apply (find_by_split Ascii.eqb needle).
Qed.

Lemma find_stable (needle s b m a : string) :
  Str.find needle s = Some (b, m, a) ->
  forall a', Str.find needle (b ++ needle ++ a') = Some (b, needle, a').
Proof.
  intros H a'. pose proof (find_matched _ _ _ _ _ H) as ->.
  now apply (find_by_stable Ascii.eqb needle s b needle a).
Qed.

(** ** Facts about [split] and [join] *)

Lemma split_fuel_not_nil (k : nat) (sep s : string) :
  Str.split_fuel k sep s <> [].
Proof.
  destruct k as [|k]; simpl; [easy|].
  now destruct (Str.find sep s) as [[[b m] a]|].
Qed.

Lemma join_cons (sep x : string) (l : list string) :
  l <> [] -> Str.join sep (x :: l) = x ++ sep ++ Str.join sep l.
Proof.
  destruct l as [|y l]; [easy|reflexivity].
Qed.

(** Joining what [split] returns gives the text back. *)
Lemma join_split_fuel (k : nat) (sep s : string) :
  Str.join sep (Str.split_fuel k sep s) = s.
Proof.
  revert s; induction k as [|k IH]; intros s; simpl; [reflexivity|].
  destruct (Str.find sep s) as [[[b m] a]|] eqn:F; [|reflexivity].
  rewrite join_cons by apply split_fuel_not_nil.
  rewrite IH. symmetry. now apply (find_split sep s b m a).
Qed.

Lemma join_split (sep s : string) : Str.join sep (Str.split sep s) = s.
Proof.
  apply join_split_fuel.
Qed.

(** Any fuel above the length of the text gives the same segments. *)
Lemma split_fuel_enough (sep : string) :
  (0 < String.length sep)%nat ->
  forall k k' s,
    (String.length s < k)%nat -> (String.length s < k')%nat ->
    Str.split_fuel k sep s = Str.split_fuel k' sep s.
Proof.
  intros Hsep. induction k as [|k IH]; intros k' s Hk Hk'; [lia|].
  destruct k' as [|k']; [lia|]. simpl.
  destruct (Str.find sep s) as [[[b m] a]|] eqn:F; [|reflexivity].
  f_equal. apply IH.
  - apply find_split in F. subst s. rewrite !length_append in Hk. lia.
  - apply find_split in F. subst s. rewrite !length_append in Hk'. lia.
Qed.

(** One step of [split]: the first segment, then the segments of the
    rest. *)
Lemma split_step (sep s b m a : string) :
  (0 < String.length sep)%nat ->
  Str.find sep s = Some (b, m, a) ->
  Str.split sep s = b :: Str.split sep a.
Proof.
  intros Hsep F. unfold Str.split.
  change (Str.split_fuel (S (String.length s)) sep s)
    with (match Str.find sep s with
          | Some (b, _, a) => b :: Str.split_fuel (String.length s) sep a
          | None => [s]
          end).
  rewrite F. f_equal.
  apply split_fuel_enough; trivial.
  - apply find_split in F. subst s. rewrite !length_append. lia.
  - lia.
Qed.

Lemma split_none (sep s : string) :
  Str.find sep s = None -> Str.split sep s = [s].
Proof.
  intros F. unfold Str.split.
  change (Str.split_fuel (S (String.length s)) sep s)
    with (match Str.find sep s with
          | Some (b, _, a) => b :: Str.split_fuel (String.length s) sep a
          | None => [s]
          end).
  now rewrite F.
Qed.

(** The first two segments survive a change of what follows the second
    separator. *)
Lemma split_two_stable (sep s p0 p1 : string) (rest : list string) :
  (0 < String.length sep)%nat ->
  Str.split sep s = p0 :: p1 :: rest -> rest <> [] ->
  exists post,
    s = p0 ++ sep ++ p1 ++ sep ++ post
    /\ Str.join sep rest = post
    /\ forall post',
         Str.split sep (p0 ++ sep ++ p1 ++ sep ++ post')
         = p0 :: p1 :: Str.split sep post'.
Proof.
  intros Hsep Hs Hrest.
  destruct (Str.find sep s) as [[[b m] a]|] eqn:F.
  2:{ rewrite (split_none _ _ F) in Hs. discriminate. }
  rewrite (split_step _ _ _ _ _ Hsep F) in Hs. injection Hs as -> Ha.
  destruct (Str.find sep a) as [[[b1 m1] a1]|] eqn:F1.
  2:{ rewrite (split_none _ _ F1) in Ha. injection Ha as _ <-. easy. }
  rewrite (split_step _ _ _ _ _ Hsep F1) in Ha. injection Ha as -> Ha1.
  exists a1. split; [|split].
  - rewrite (find_split _ _ _ _ _ F). now rewrite (find_split _ _ _ _ _ F1).
  - rewrite <- Ha1. apply join_split.
  - intros post'.
    rewrite (split_step sep _ p0 sep (p1 ++ sep ++ post') Hsep
               (find_stable _ _ _ _ _ F _)).
    now rewrite (split_step sep _ p1 sep post' Hsep
                   (find_stable _ _ _ _ _ F1 _)).
Qed.

Lemma join_insert_2 (sep x p0 p1 : string) (rest : list string) :
  rest <> [] ->
  Str.join sep (Str.list_insert 2 x (p0 :: p1 :: rest))
  = p0 ++ sep ++ p1 ++ sep ++ x ++ sep ++ Str.join sep rest.
Proof.
  intros Hrest.
  change (Str.list_insert 2 x (p0 :: p1 :: rest)) with (p0 :: p1 :: x :: rest).
  rewrite !join_cons; easy.
Qed.

Lemma at_least_three {A : Type} (l : list A) :
  (3 <= List.length l)%nat ->
  exists p0 p1 rest, l = p0 :: p1 :: rest /\ rest <> [].
Proof.
  destruct l as [|p0 [|p1 [|p2 rest]]]; simpl; try lia.
  intros _. now exists p0, p1, (p2 :: rest).
Qed.

(** ** The ad-unit step *)

Lemma ad_unit_skipped (cfg : Config) (content : string) :
  ~ ad_unit_inserted cfg content ->
  add_google_adsense_units cfg content = content.
Proof.
  unfold ad_unit_inserted, add_google_adsense_units. intros H.
  destruct (adsense_enabled cfg); [|reflexivity].
  change (negb true) with false. cbv iota.
  destruct (Nat.leb_spec 3 (List.length (Str.split "</p>" content)));
    [|reflexivity].
  exfalso. apply H. now split.
Qed.

(** Where the ad unit goes in, and what a second run does: the first two
    paragraphs are still there, so the unit goes in once more at the same
    place. *)
Lemma ad_unit_shape (cfg : Config) (content : string) :
  ad_unit_inserted cfg content ->
  exists pre post,
    content = pre ++ post
    /\ add_google_adsense_units cfg content = pre ++ ad_block cfg ++ post
    /\ add_google_adsense_units cfg (add_google_adsense_units cfg content)
       = pre ++ ad_block cfg ++ ad_block cfg ++ post.
Proof.
  intros [Hen Hlen].
  assert (Hsep : (0 < String.length "</p>")%nat) by (simpl; lia).
  destruct (at_least_three _ Hlen) as (p0 & p1 & rest & Hs & Hrest).
  destruct (split_two_stable _ _ _ _ _ Hsep Hs Hrest)
    as (post & Hc & Hj & Hst).
  set (ad := in_article_ad (adsense_client_id cfg)).
  assert (Hfirst : add_google_adsense_units cfg content
                   = p0 ++ "</p>" ++ p1 ++ "</p>" ++ (ad ++ "</p>") ++ "</p>"
                     ++ post).
  { unfold add_google_adsense_units. rewrite Hen.
    change (negb true) with false. cbv iota. cbv zeta.
    rewrite Hs.
    destruct rest as [|p2 rest]; [easy|].
    change (3 <=? List.length (p0 :: p1 :: p2 :: rest))%nat with true.
    cbv iota. rewrite join_insert_2 by easy. now rewrite Hj. }
  exists (p0 ++ "</p>" ++ p1 ++ "</p>"), post. split; [|split].
  - now rewrite !append_assoc.
  - rewrite Hfirst. unfold ad_block. fold ad. now rewrite !append_assoc.
  - rewrite Hfirst. unfold add_google_adsense_units at 1. rewrite Hen.
    change (negb true) with false. cbv iota. cbv zeta. rewrite Hst.
    pose proof (split_fuel_not_nil
                  (S (String.length ((ad ++ "</p>") ++ "</p>" ++ post)))
                  "</p>" ((ad ++ "</p>") ++ "</p>" ++ post)) as Hne.
    fold (Str.split "</p>" ((ad ++ "</p>") ++ "</p>" ++ post)) in Hne.
    destruct (Str.split "</p>" ((ad ++ "</p>") ++ "</p>" ++ post))
      as [|q0 qs] eqn:Hq; [easy|].
    change (3 <=? List.length (p0 :: p1 :: q0 :: qs))%nat with true.
    cbv iota. rewrite join_insert_2 by easy.
    rewrite <- Hq, join_split. unfold ad_block. fold ad.
    now rewrite !append_assoc.
Qed.

Lemma ad_block_length (cfg : Config) :
  (0 < String.length (ad_block cfg))%nat.
Proof.
  unfold ad_block, in_article_ad, lines. simpl. lia.
Qed.

(** ** The email-capture step *)

Lemma search_h2_split (s b m a : string) :
  Re.search_h2 s = Some (b, m, a) -> s = b ++ m ++ a.
Proof.
  unfold Re.search_h2.
  destruct (Str.find "</h2>" s) as [[[b0 h] r1]|] eqn:F0; [|discriminate].
  destruct (Str.find "<p>" r1) as [[[g1 p] r2]|] eqn:F1; [|discriminate].
  destruct (Str.find "</p>" r2) as [[[g2 q] a0]|] eqn:F2; [|discriminate].
  intros [= <- <- <-].
  pose proof (find_matched _ _ _ _ _ F0) as ->.
  pose proof (find_matched _ _ _ _ _ F1) as ->.
  pose proof (find_matched _ _ _ _ _ F2) as ->.
  rewrite (find_split _ _ _ _ _ F0), (find_split _ _ _ _ _ F1),
    (find_split _ _ _ _ _ F2).
  now rewrite !append_assoc.
Qed.

(** The match found by the heading pattern does not depend on what
    follows it. *)
Lemma search_h2_stable (s b m a : string) :
  Re.search_h2 s = Some (b, m, a) ->
  forall a', Re.search_h2 (b ++ m ++ a') = Some (b, m, a').
Proof.
  unfold Re.search_h2.
  destruct (Str.find "</h2>" s) as [[[b0 h] r1]|] eqn:F0; [|discriminate].
  destruct (Str.find "<p>" r1) as [[[g1 p] r2]|] eqn:F1; [|discriminate].
  destruct (Str.find "</p>" r2) as [[[g2 q] a0]|] eqn:F2; [|discriminate].
  intros [= <- <- <-] a'.
  pose proof (find_matched _ _ _ _ _ F0) as ->.
  pose proof (find_matched _ _ _ _ _ F1) as ->.
  pose proof (find_matched _ _ _ _ _ F2) as ->.
  replace (b0 ++ ("</h2>" ++ g1 ++ "<p>" ++ g2 ++ "</p>") ++ a')
    with (b0 ++ "</h2>" ++ (g1 ++ "<p>" ++ (g2 ++ "</p>" ++ a')))
    by now rewrite !append_assoc.
  rewrite (find_stable _ _ _ _ _ F0).
  rewrite (find_stable _ _ _ _ _ F1).
  now rewrite (find_stable _ _ _ _ _ F2).
Qed.

Lemma email_capture_skipped (content : string) :
  ~ email_capture_inserted content -> add_email_capture content = content.
Proof.
  unfold email_capture_inserted, add_email_capture. intros H.
  destruct (Re.search_h2 content); [|reflexivity].
  exfalso. now apply H.
Qed.

Lemma email_capture_shape (content : string) :
  email_capture_inserted content ->
  exists pre post,
    content = pre ++ post
    /\ add_email_capture content = pre ++ email_block ++ post
    /\ add_email_capture (add_email_capture content)
       = pre ++ email_block ++ email_block ++ post.
Proof.
  unfold email_capture_inserted. intros H.
  destruct (Re.search_h2 content) as [[[b m] a]|] eqn:F; [|easy].
  assert (Hfirst : add_email_capture content = b ++ m ++ email_block ++ a).
  { unfold add_email_capture, Re.sub_h2_first. now rewrite F. }
  exists (b ++ m), a. split; [|split].
  - rewrite append_assoc. now apply search_h2_split.
  - now rewrite Hfirst, append_assoc.
  - rewrite Hfirst. unfold add_email_capture, Re.sub_h2_first.
    rewrite (search_h2_stable _ _ _ _ F). now rewrite !append_assoc.
Qed.

Lemma email_block_length : (0 < String.length email_block)%nat.
Proof.
  unfold email_block. simpl. lia.
Qed.

(** ** The recommendation step *)

Lemma conclusion_match_not_empty (n : nat) :
  Re.conclusion_match_at EmptyString <> Some n.
Proof.
  easy.
Qed.

Lemma sub_conclusion_length_ge (ins : string) (skip : nat) (s : string) :
  (String.length s <= String.length (Re.sub_conclusion ins skip s))%nat.
Proof.
  revert skip; induction s as [|c s IH]; intros skip; [simpl; lia|].
  cbn [Re.sub_conclusion].
  destruct skip as [|k].
  - destruct (Re.conclusion_match_at (String c s)) as [n|].
    + rewrite length_append. cbn [String.length].
      specialize (IH (n - 1)%nat). lia.
    + cbn [String.length]. specialize (IH 0%nat). lia.
  - cbn [String.length]. specialize (IH k). lia.
Qed.

(** When the pattern matches somewhere, the substitution puts at least one
    copy of the block in. *)
Lemma sub_conclusion_length_gt (ins s : string) :
  (0 < String.length ins)%nat ->
  Re.search_conclusion s = true ->
  (String.length s < String.length (Re.sub_conclusion ins 0 s))%nat.
Proof.
  intros Hins. induction s as [|c s IH]; intros H.
  - discriminate H.
  - cbn [Re.search_conclusion] in H. cbn [Re.sub_conclusion].
    destruct (Re.conclusion_match_at (String c s)) as [n|].
    + rewrite length_append. cbn [String.length].
      pose proof (sub_conclusion_length_ge ins (n - 1) s). lia.
    + cbn [String.length]. specialize (IH H). lia.
Qed.

Lemma recommendation_section_length (cfg : Config)
  (products : list AffiliateProduct) :
  (0 < String.length (generate_recommendation_section cfg products))%nat.
Proof.
  unfold generate_recommendation_section. rewrite length_append.
  unfold recommendation_footer, lines. simpl. lia.
Qed.

Lemma recommendations_skipped (cfg : Config)
  (products : list AffiliateProduct) (content : string) :
  ~ recommendations_inserted products content ->
  add_product_recommendations cfg products content = content.
Proof.
  unfold recommendations_inserted, add_product_recommendations. intros H.
  destruct (find_relevant_products products content 3); [reflexivity|].
  exfalso. now apply H.
Qed.

Lemma recommendations_grow (cfg : Config)
  (products : list AffiliateProduct) (content : string) :
  recommendations_inserted products content ->
  (String.length content
   < String.length (add_product_recommendations cfg products content))%nat.
Proof.
  unfold recommendations_inserted, add_product_recommendations. intros H.
  destruct (find_relevant_products products content 3) as [|p l]; [easy|].
  pose proof (recommendation_section_length cfg (p :: l)) as Hlen.
  destruct (Re.search_conclusion content) eqn:E.
  - apply sub_conclusion_length_gt; [|exact E].
    rewrite length_append. lia.
  - rewrite !length_append. lia.
Qed.

(** ** Lengths before and after each step *)

Lemma grew_spec (original content : string) :
  (grew original content = 1%Z
   <-> (String.length original < String.length content)%nat)
  /\ (grew original content = 0%Z
      <-> (String.length content <= String.length original)%nat).
Proof.
  unfold grew.
  destruct (Nat.ltb_spec (String.length original) (String.length content));
    split; split; intros; try lia; try reflexivity; try discriminate.
Qed.

Lemma flag_tells (original content : string) (inserted : Prop) :
  ((String.length original < String.length content)%nat <-> inserted) ->
  (grew original content = 1%Z <-> inserted)
  /\ (grew original content = 0%Z <-> ~ inserted).
Proof.
  intros H. destruct (grew_spec original content) as [G1 G0].
  split.
  - now rewrite G1.
  - rewrite G0, <- H. split; intros; lia.
Qed.

Lemma recommendations_length (cfg : Config)
  (products : list AffiliateProduct) (content : string) :
  (String.length content
   <= String.length (add_product_recommendations cfg products content))%nat
  /\ ((String.length content
       < String.length (add_product_recommendations cfg products content))%nat
      <-> recommendations_inserted products content).
Proof.
  destruct (find_relevant_products products content 3) as [|p l] eqn:E.
  - assert (H : ~ recommendations_inserted products content)
      by (unfold recommendations_inserted; rewrite E; intros X; now apply X).
    rewrite (recommendations_skipped cfg _ _ H). split; [lia|].
    split; [lia|easy].
  - assert (H : recommendations_inserted products content)
      by (unfold recommendations_inserted; now rewrite E).
    pose proof (recommendations_grow cfg products content H).
    split; [lia|]. split; [now intros _|now intros _].
Qed.

Lemma email_capture_length (content : string) :
  (String.length content <= String.length (add_email_capture content))%nat
  /\ ((String.length content < String.length (add_email_capture content))%nat
      <-> email_capture_inserted content).
Proof.
  destruct (Re.search_h2 content) as [r|] eqn:E.
  - assert (H : email_capture_inserted content)
      by (unfold email_capture_inserted; now rewrite E).
    destruct (email_capture_shape content H) as (pre & post & Hc & Hf & _).
    pose proof email_block_length as Hb. revert Hb Hf.
    generalize email_block. intros blk Hb Hf.
    apply (f_equal String.length) in Hc, Hf.
    rewrite !length_append in Hc. rewrite !length_append in Hf.
    split; [lia|]. split; [now intros _|lia].
  - assert (H : ~ email_capture_inserted content)
      by (unfold email_capture_inserted; now rewrite E).
    rewrite (email_capture_skipped _ H). split; [lia|]. split; [lia|easy].
Qed.

Lemma ad_unit_length (cfg : Config) (content : string) :
  (String.length content
   <= String.length (add_google_adsense_units cfg content))%nat
  /\ ((String.length content
       < String.length (add_google_adsense_units cfg content))%nat
      <-> ad_unit_inserted cfg content).
Proof.
  assert (D : ad_unit_inserted cfg content \/ ~ ad_unit_inserted cfg content).
  { unfold ad_unit_inserted. destruct (adsense_enabled cfg).
    - destruct (Nat.leb_spec 3 (List.length (Str.split "</p>" content)));
        [left; now split|right; intros [_ ?]; lia].
    - right. now intros [? _]. }
  destruct D as [H|H].
  - destruct (ad_unit_shape cfg content H) as (pre & post & Hc & Hf & _).
    pose proof (ad_block_length cfg) as Hb. revert Hb Hf.
    generalize (ad_block cfg). intros blk Hb Hf.
    apply (f_equal String.length) in Hc, Hf.
    rewrite !length_append in Hc. rewrite !length_append in Hf.
    split; [lia|]. split; [now intros _|lia].
  - rewrite (ad_unit_skipped _ _ H). split; [lia|]. split; [lia|easy].
Qed.

(** ** Facts about the scorer *)

Lemma count_loop (f : string -> bool) (l : list string) (start : Z) :
  fold_left (fun score keyword => if f keyword then (score + 1)%Z else score)
    l start
  = (start + Z.of_nat (List.length (filter f l)))%Z.
Proof.
  revert start; induction l as [|k l IH]; intros start; simpl; [lia|].
  rewrite IH. destruct (f k); simpl List.length; lia.
Qed.

(** The score is the number of keywords found plus the category bonus. *)
Lemma relevance_score_eq (product : AffiliateProduct) (content_lower : string) :
  relevance_score product content_lower
  = (Z.of_nat (List.length (matched_keywords product content_lower))
     + category_bonus product content_lower)%Z.
Proof.
  unfold relevance_score, matched_keywords, category_bonus.
  rewrite count_loop.
  destruct (Str.contains (Str.replace_char "_" " " (category product))
              content_lower); lia.
Qed.

Lemma relevance_score_nonneg (product : AffiliateProduct)
  (content_lower : string) :
  (0 <= relevance_score product content_lower)%Z.
Proof.
  rewrite relevance_score_eq. unfold category_bonus.
  destruct (Str.contains _ content_lower); lia.
Qed.

Lemma scored_loop (content_lower : string) (products : list AffiliateProduct)
  (acc : list (AffiliateProduct * Z)) :
  fold_left
    (fun relevant_products product =>
       let score := relevance_score product content_lower in
       if (0 <? score)%Z
       then (relevant_products ++ [(product, score)])%list
       else relevant_products)
    products acc
  = (acc ++ positive_scores products content_lower)%list.
Proof.
  revert acc; induction products as [|p l IH]; intros acc.
  - simpl. now rewrite app_nil_r.
  - simpl fold_left. rewrite IH. unfold positive_scores. simpl.
    destruct (0 <? relevance_score p content_lower)%Z.
    + now rewrite <- app_assoc.
    + reflexivity.
Qed.

Lemma scored_products_eq (products : list AffiliateProduct)
  (content_lower : string) :
  scored_products products content_lower
  = positive_scores products content_lower.
Proof.
  unfold scored_products. now rewrite scored_loop.
Qed.

(** ** Facts about the sort *)

Section Sort.

Context {A : Type}.

Lemma insert_desc_perm (x : A * Z) (l : list (A * Z)) :
  Permutation (insert_desc x l) (x :: l).
Proof.
  induction l as [|y l IH]; simpl; [apply Permutation_refl|].
  destruct (snd y <=? snd x)%Z; [apply Permutation_refl|].
  eapply perm_trans; [apply perm_skip, IH|apply perm_swap].
Qed.

Lemma sort_desc_perm (l : list (A * Z)) : Permutation (sort_desc l) l.
Proof.
  induction l as [|x l IH]; simpl; [constructor|].
  eapply perm_trans; [apply insert_desc_perm|now apply perm_skip].
Qed.

Lemma insert_desc_sorted (x : A * Z) (l : list (A * Z)) :
  StronglySorted by_score_desc l ->
  StronglySorted by_score_desc (insert_desc x l).
Proof.
  induction l as [|y l IH]; simpl; intros Hs.
  - constructor; constructor.
  - inversion Hs as [|? ? Hl Hy]; subst.
    destruct (Z.leb_spec (snd y) (snd x)).
    + constructor; [exact Hs|]. constructor; [exact H|].
      eapply Forall_impl; [|exact Hy]. unfold by_score_desc. intros; lia.
    + constructor; [now apply IH|].
      eapply Permutation_Forall;
        [apply Permutation_sym, insert_desc_perm|].
      constructor; [unfold by_score_desc; lia|exact Hy].
Qed.

Lemma sort_desc_sorted (l : list (A * Z)) :
  StronglySorted by_score_desc (sort_desc l).
Proof.
  induction l as [|x l IH]; simpl; [constructor|].
  now apply insert_desc_sorted.
Qed.

(** Stability: the elements of any one score come out in the order in
    which they went in. *)
Lemma insert_desc_stable (s : Z) (x : A * Z) (l : list (A * Z)) :
  filter (fun e => (snd e =? s)%Z) (insert_desc x l)
  = filter (fun e => (snd e =? s)%Z) (x :: l).
Proof.
  induction l as [|y l IH]; [reflexivity|].
  simpl insert_desc.
  destruct (Z.leb_spec (snd y) (snd x)); [reflexivity|].
  simpl filter in *. rewrite IH.
  destruct (Z.eqb_spec (snd x) s), (Z.eqb_spec (snd y) s);
    try reflexivity; lia.
Qed.

Lemma sort_desc_stable (s : Z) (l : list (A * Z)) :
  filter (fun e => (snd e =? s)%Z) (sort_desc l)
  = filter (fun e => (snd e =? s)%Z) l.
Proof.
  induction l as [|x l IH]; [reflexivity|].
  simpl sort_desc. rewrite insert_desc_stable. simpl. now rewrite IH.
Qed.

Lemma slice_to_nat (n : nat) (l : list A) :
  Str.slice_to (Z.of_nat n) l = firstn n l.
Proof.
  unfold Str.slice_to.
  destruct (Z.leb_spec 0 (Z.of_nat n)); [|lia].
  now rewrite Nat2Z.id.
Qed.

End Sort.

Lemma two_distinct_members (f : string -> bool) (l : list string)
  (k1 k2 : string) :
  k1 <> k2 -> In k1 l -> In k2 l -> f k1 = true -> f k2 = true ->
  (2 <= List.length (filter f l))%nat.
Proof.
  intros Hne H1 H2 F1 F2.
  assert (I1 : In k1 (filter f l)) by (apply filter_In; now split).
  assert (I2 : In k2 (filter f l)) by (apply filter_In; now split).
  destruct (filter f l) as [|a [|b r]]; simpl in *; try lia; try easy.
  destruct I1 as [<-|[]], I2 as [<-|[]]. easy.
Qed.

(** ** Facts about link insertion *)

Lemma eq_ci_lower (a b : ascii) :
  Re.eq_ci a b = true -> Str.lower_char a = Str.lower_char b.
Proof.
  unfold Re.eq_ci. apply Ascii.eqb_eq.
Qed.

Lemma match_literal_ci_split (kw t : string) (prev : option ascii)
  (m : string) (last : option ascii) (rest : string) :
  Re.match_literal_ci kw t prev = Some (m, last, rest) ->
  t = m ++ rest /\ Str.lower m = Str.lower kw.
Proof.
  revert t prev m; induction kw as [|k kw IH]; intros t prev m; simpl.
  - intros [= <- <- <-]. now split.
  - destruct t as [|c t]; [discriminate|].
    destruct (Re.eq_ci k c) eqn:E; [|discriminate].
    destruct (Re.match_literal_ci kw t (Some c)) as [[[m' l'] r']|] eqn:M;
      [|discriminate].
    intros [= <- <- <-]. destruct (IH _ _ _ M) as [-> Hl].
    split; [reflexivity|]. simpl. rewrite Hl.
    now rewrite (eq_ci_lower _ _ E).
Qed.

Lemma match_word_at_split (kw : string) (prev : option ascii)
  (t m rest : string) :
  Re.match_word_at kw prev t = Some (m, rest) ->
  t = m ++ rest /\ Str.lower m = Str.lower kw.
Proof.
  unfold Re.match_word_at.
  destruct (Re.boundary prev (Str.head t)); [|discriminate].
  destruct (Re.match_literal_ci kw t prev) as [[[m' l'] r']|] eqn:M;
    [|discriminate].
  destruct (Re.boundary l' (Str.head r')); [|discriminate].
  intros [= <- <-]. now apply (match_literal_ci_split kw t prev m' l' r').
Qed.

(** What the word search returns: the text cut in three around a match
    that is the keyword up to case. *)
Lemma search_word_split (kw : string) (prev : option ascii)
  (s b m a : string) :
  Re.search_word kw prev s = Some (b, m, a) ->
  s = b ++ m ++ a /\ Str.lower m = Str.lower kw.
Proof.
  revert prev b; induction s as [|c s IH]; intros prev b.
  - cbn [Re.search_word].
    destruct (Re.match_word_at kw prev EmptyString) as [[m' r']|] eqn:M;
      [|discriminate].
    intros [= <- <- <-]. exact (match_word_at_split _ _ _ _ _ M).
  - cbn [Re.search_word].
    destruct (Re.match_word_at kw prev (String c s)) as [[m' r']|] eqn:M.
    + intros [= <- <- <-]. exact (match_word_at_split _ _ _ _ _ M).
    + destruct (Re.search_word kw (Some c) s) as [[[b' m'] a']|] eqn:F;
        [|discriminate].
      intros [= <- <- <-]. destruct (IH _ _ F) as [-> Hl]. now split.
Qed.

(** The match that the word search returns is the leftmost one: the
    pattern matches at no position of the text in front of it. *)
Lemma search_word_leftmost (kw : string) (prev : option ascii)
  (s b m a : string) :
  Re.search_word kw prev s = Some (b, m, a) ->
  forall b1 b2,
    b = b1 ++ b2 -> b2 <> EmptyString ->
    Re.match_word_at kw (Re.char_before prev b1) (b2 ++ m ++ a) = None.
Proof.
  revert prev b; induction s as [|c s IH]; intros prev b.
  - cbn [Re.search_word].
    destruct (Re.match_word_at kw prev EmptyString) as [[m' r']|] eqn:M;
      [|discriminate].
    intros [= <- <- <-] b1 b2 Hb Hb2.
    destruct b1; [|discriminate]. simpl in Hb. now subst b2.
  - intros Hsearch. pose proof (search_word_split _ _ _ _ _ _ Hsearch) as [Hs _].
    cbn [Re.search_word] in Hsearch.
    destruct (Re.match_word_at kw prev (String c s)) as [[m' r']|] eqn:M.
    + injection Hsearch as <- <- <-. intros b1 b2 Hb Hb2.
      destruct b1; [|discriminate]. simpl in Hb. now subst b2.
    + destruct (Re.search_word kw (Some c) s) as [[[b' m'] a']|] eqn:F;
        [|discriminate].
      injection Hsearch as <- <- <-. intros b1 b2 Hb Hb2.
      destruct b1 as [|c1 b1].
      * simpl in Hb. subst b2. simpl Re.char_before. now rewrite <- Hs.
      * simpl in Hb. injection Hb as <- Hb'. simpl Re.char_before.
        exact (IH (Some c) b' F b1 b2 Hb' Hb2).
Qed.

(** ** Facts about contents that mention no keyword *)

Lemma existsb_false {A : Type} (f : A -> bool) (l : list A) :
  existsb f l = false -> forall x, In x l -> f x = false.
Proof.
  intros H x Hx. destruct (f x) eqn:E; [|reflexivity].
  rewrite <- H. symmetry. apply existsb_exists. now exists x.
Qed.

Lemma filter_none {A : Type} (f : A -> bool) (l : list A) :
  (forall x, In x l -> f x = false) -> filter f l = [].
Proof.
  induction l as [|x l IH]; intros H; [reflexivity|].
  simpl. rewrite (H x) by now left.
  apply IH. intros y Hy. apply H. now right.
Qed.

Lemma no_keyword_no_score (products : list AffiliateProduct)
  (content : string) (product : AffiliateProduct) :
  forallb (category_is_keyword products) products = true ->
  mentions_keyword products content = false ->
  In product products ->
  relevance_score product (Str.lower content) = 0%Z.
Proof.
  intros Hcat Hno Hin. rewrite relevance_score_eq.
  assert (Hkw : forall q k, In q products -> In k (keywords q) ->
                  Str.contains (Str.lower k) (Str.lower content) = false).
  { intros q k Hq Hk. unfold mentions_keyword in Hno.
    pose proof (existsb_false _ _ Hno q Hq) as Hq'. simpl in Hq'.
    exact (existsb_false _ _ Hq' k Hk). }
  assert (Hm : matched_keywords product (Str.lower content) = []).
  { unfold matched_keywords. apply filter_none.
    intros k Hk. now apply (Hkw product). }
  rewrite Hm. unfold category_bonus.
  rewrite forallb_forall in Hcat. specialize (Hcat product Hin).
  unfold category_is_keyword in Hcat.
  apply existsb_exists in Hcat as (q & Hq & Hcat).
  apply existsb_exists in Hcat as (k & Hk & Heq).
  apply String.eqb_eq in Heq. rewrite <- Heq.
  now rewrite (Hkw q k Hq Hk).
Qed.

Lemma no_keyword_no_product (products : list AffiliateProduct)
  (content : string) :
  forallb (category_is_keyword products) products = true ->
  mentions_keyword products content = false ->
  scored_products products (Str.lower content) = [].
Proof.
  intros Hcat Hno. rewrite scored_products_eq. unfold positive_scores.
  apply filter_none. intros [p sc] Hin.
  apply in_map_iff in Hin as (q & [= <- <-] & Hq). simpl.
  now rewrite (no_keyword_no_score products content q Hcat Hno Hq).
Qed.

Lemma slice_to_nil {A : Type} (n : Z) : Str.slice_to n (@nil A) = [].
Proof.
  unfold Str.slice_to. destruct (0 <=? n)%Z; apply firstn_nil.
Qed.

(** ** Link insertion: what replaces a matched keyword *)

(** C1 fails as stated: on the example of the specification no anchor
    wraps the phrase. With the product alone in the catalog the phrase is
    gone from the output and the anchor shows the product's name; with the
    static catalog the two links that go in belong to another product. *)
Lemma phrase_is_not_wrapped :
  Str.contains ">white noise machine</a>"
    (fst (insert_affiliate_links sample_config [marpac_dohm]
            sleep_environment_post)) = false
  /\ Str.contains "white noise machine"
       (fst (insert_affiliate_links sample_config [marpac_dohm]
               sleep_environment_post)) = false
  /\ Str.contains ">Marpac Dohm White Noise Machine</a>"
       (fst (insert_affiliate_links sample_config [marpac_dohm]
               sleep_environment_post)) = true
  /\ Str.contains ">white noise machine</a>"
       (fst (insert_affiliate_links sample_config load_affiliate_products
               sleep_environment_post)) = false
  /\ map link_product
       (snd (insert_affiliate_links sample_config load_affiliate_products
               sleep_environment_post))
     = ["Hatch Baby Rest Sound Machine"; "Hatch Baby Rest Sound Machine"].
Proof.
  repeat split; vm_compute; reflexivity.
Qed.

(** ** Scoring *)

(** C2 (as amended): the score of a product is one point for each of its
    keywords whose lower-case form occurs anywhere in the lowered content
    (as a substring, word boundaries play no part), plus two points when
    the category, with underscores replaced by spaces, occurs in the
    lowered content. *)
Theorem relevance_score_counts_substrings (product : AffiliateProduct)
  (content : string) :
  relevance_score product (Str.lower content)
  = (Z.of_nat
       (List.length
          (filter
             (fun keyword =>
                Str.contains (Str.lower keyword) (Str.lower content))
             (keywords product)))
     + (if Str.contains (Str.replace_char "_" " " (category product))
             (Str.lower content)
        then 2 else 0))%Z.
Proof.
  apply relevance_score_eq.
Qed.

(** C2 fails as stated: [weighted] occurs in the post only inside
    [unweighted], the score by word boundaries is 0, and the scorer gives
    1 and selects the product. *)
Lemma fragment_scores_a_point :
  spec_relevance_score zen_sack unweighted_post = 0%Z
  /\ relevance_score zen_sack (Str.lower unweighted_post) = 1%Z
  /\ find_relevant_products load_affiliate_products unweighted_post
       default_max_products = [zen_sack].
Proof.
  repeat split; vm_compute; reflexivity.
Qed.

(** C6 (as amended): when the content contains two distinct keywords of a
    product, at least two of its keywords count, one point each, and the
    score is the number of keywords found plus two points when the
    category occurs; it is 2 only if no other keyword and not the category
    occurs. *)
Theorem two_keywords_score (product : AffiliateProduct) (content : string)
  (k1 k2 : string) :
  k1 <> k2 ->
  In k1 (keywords product) -> In k2 (keywords product) ->
  Str.contains (Str.lower k1) (Str.lower content) = true ->
  Str.contains (Str.lower k2) (Str.lower content) = true ->
  (2 <= List.length (matched_keywords product (Str.lower content)))%nat
  /\ relevance_score product (Str.lower content)
     = (Z.of_nat (List.length (matched_keywords product (Str.lower content)))
        + (if Str.contains (Str.replace_char "_" " " (category product))
                (Str.lower content)
           then 2 else 0))%Z
  /\ (2 <= relevance_score product (Str.lower content))%Z.
Proof.
  intros Hne H1 H2 C1 C2.
  pose proof (two_distinct_members
                (fun k => Str.contains (Str.lower k) (Str.lower content))
                (keywords product) k1 k2 Hne H1 H2 C1 C2) as Htwo.
  fold (matched_keywords product (Str.lower content)) in Htwo.
  pose proof (relevance_score_eq product (Str.lower content)) as Hs.
  unfold category_bonus in Hs.
  split; [exact Htwo|]. split; [exact Hs|].
  rewrite Hs.
  destruct (Str.contains (Str.replace_char "_" " " (category product))
              (Str.lower content)); lia.
Qed.

(** The theorem at a post with two keywords of the sleep sack. *)
Lemma two_keywords_score_example :
  (2 <= List.length
          (matched_keywords zen_sack
             (Str.lower "<p>A weighted swaddle.</p>")))%nat
  /\ relevance_score zen_sack (Str.lower "<p>A weighted swaddle.</p>")
     = (Z.of_nat
          (List.length
             (matched_keywords zen_sack
                (Str.lower "<p>A weighted swaddle.</p>")))
        + (if Str.contains (Str.replace_char "_" " " (category zen_sack))
                (Str.lower "<p>A weighted swaddle.</p>")
           then 2 else 0))%Z
  /\ (2 <= relevance_score zen_sack
             (Str.lower "<p>A weighted swaddle.</p>"))%Z.
Proof.
  apply (two_keywords_score zen_sack "<p>A weighted swaddle.</p>"
           "swaddle" "weighted").
  - discriminate.
  - simpl. tauto.
  - simpl. tauto.
  - vm_compute. reflexivity.
  - vm_compute. reflexivity.
Defined.

(** C6 fails as stated: the post contains exactly two keywords of the
    sound machine and its score is 4, because one of them is also the
    category. *)
Lemma two_keywords_score_four :
  matched_keywords hatch_rest (Str.lower night_light_post)
  = ["sound machine"; "night light"]
  /\ relevance_score hatch_rest (Str.lower night_light_post) = 4%Z.
Proof.
  split; vm_compute; reflexivity.
Qed.

(** C9: [find_relevant_products] keeps the products whose score is not
    zero, ranks them by descending score with equal scores in catalog
    order, and returns the first [max_products] of that ranking, hence at
    most [max_products] products; the default of [max_products] is 3. *)
Theorem find_relevant_products_ranking (products : list AffiliateProduct)
  (content : string) (max_products : nat) :
  exists ranked : list (AffiliateProduct * Z),
    (forall product score,
       In (product, score) ranked
       <-> In product products
           /\ score = relevance_score product (Str.lower content)
           /\ score <> 0%Z)
    /\ Permutation ranked (positive_scores products (Str.lower content))
    /\ StronglySorted by_score_desc ranked
    /\ (forall score,
          filter (fun e => (snd e =? score)%Z) ranked
          = filter (fun e => (snd e =? score)%Z)
              (positive_scores products (Str.lower content)))
    /\ find_relevant_products products content (Z.of_nat max_products)
       = map fst (firstn max_products ranked)
    /\ (List.length
          (find_relevant_products products content (Z.of_nat max_products))
        <= max_products)%nat
    /\ default_max_products = 3%Z.
Proof.
  exists (sort_desc (positive_scores products (Str.lower content))).
  assert (Hfind :
    find_relevant_products products content (Z.of_nat max_products)
    = map fst (firstn max_products
                 (sort_desc (positive_scores products (Str.lower content))))).
  { unfold find_relevant_products.
    now rewrite scored_products_eq, slice_to_nat. }
  split; [|split; [|split; [|split; [|split; [|split]]]]].
  - intros product score. split.
    + intros Hin.
      apply (Permutation_in _ (sort_desc_perm _)) in Hin.
      unfold positive_scores in Hin. apply filter_In in Hin as [Hin Hpos].
      apply in_map_iff in Hin as (q & [= <- <-] & Hq).
      simpl in Hpos. apply Z.ltb_lt in Hpos.
      split; [exact Hq|]. split; [reflexivity|lia].
    + intros (Hin & -> & Hnz).
      apply (Permutation_in _ (Permutation_sym (sort_desc_perm _))).
      unfold positive_scores. apply filter_In. split.
      * apply in_map_iff. now exists product.
      * simpl. apply Z.ltb_lt.
        pose proof (relevance_score_nonneg product (Str.lower content)). lia.
  - apply sort_desc_perm.
  - apply sort_desc_sorted.
  - intros score. apply sort_desc_stable.
  - exact Hfind.
  - rewrite Hfind, length_map. apply firstn_le_length.
  - reflexivity.
Qed.

(** ** Nested anchors *)

(** C4, the code at the failing input: the white noise machine ranks
    first and its anchor shows its name; the keyword [white noise] of the
    sound machine then matches inside that name, and the anchor of the
    second product lands inside the anchor of the first, in both places. *)
Theorem second_anchor_nests_in_first :
  let outer :=
    "<a "
    ++ Str.attr "href"
         (generate_amazon_link sample_config "B000KUHFGM"
            "white noise machine")
    ++ " " ++ Str.attr "target" "_blank" ++ " "
    ++ Str.attr "rel" "noopener" ++ ">"
    ++ "Marpac Dohm "
    ++ link_text
         (generate_amazon_link sample_config "B078K2XMJY" "sound machine")
         hatch_rest
    ++ " Machine</a>" in
  map name
    (find_relevant_products load_affiliate_products natural_sound_post
       default_max_products)
  = ["Marpac Dohm White Noise Machine"; "Hatch Baby Rest Sound Machine"]
  /\ fst (insert_affiliate_links sample_config load_affiliate_products
            natural_sound_post)
     = "<p>A " ++ outer ++ " gives a " ++ outer ++ ".</p>"
  /\ map (fun l => (link_product l, link_position l))
       (snd (insert_affiliate_links sample_config load_affiliate_products
               natural_sound_post))
     = [("Marpac Dohm White Noise Machine", "white noise machine");
        ("Marpac Dohm White Noise Machine", "natural sound");
        ("Hatch Baby Rest Sound Machine", "White Noise");
        ("Hatch Baby Rest Sound Machine", "White Noise")].
Proof.
  repeat split; vm_compute; reflexivity.
Qed.

(** ** Running a step twice *)

(** C3 (as amended): neither step uses up its insertion point. When the
    first run of [add_email_capture] (of [add_google_adsense_units]) puts
    its block in, the second run finds the same place and puts a second
    copy next to the first; a second run leaves the content alone only
    when the first run did. *)
Theorem second_run_inserts_again (cfg : Config) (content : string) :
  (email_capture_inserted content ->
   exists pre post,
     content = pre ++ post
     /\ add_email_capture content = pre ++ email_block ++ post
     /\ add_email_capture (add_email_capture content)
        = pre ++ email_block ++ email_block ++ post)
  /\ (ad_unit_inserted cfg content ->
      exists pre post,
        content = pre ++ post
        /\ add_google_adsense_units cfg content = pre ++ ad_block cfg ++ post
        /\ add_google_adsense_units cfg (add_google_adsense_units cfg content)
           = pre ++ ad_block cfg ++ ad_block cfg ++ post)
  /\ (~ email_capture_inserted content ->
      add_email_capture (add_email_capture content) = content)
  /\ (~ ad_unit_inserted cfg content ->
      add_google_adsense_units cfg (add_google_adsense_units cfg content)
      = content).
Proof.
  split; [|split; [|split]].
  - apply email_capture_shape.
  - apply ad_unit_shape.
  - intros H. now rewrite !(email_capture_skipped _ H).
  - intros H. now rewrite !(ad_unit_skipped _ _ H).
Qed.

(** The theorem at a post with one section and at a post with three
    paragraphs. *)
Lemma second_run_inserts_again_example :
  (exists pre post,
     one_section = pre ++ post
     /\ add_email_capture one_section = pre ++ email_block ++ post
     /\ add_email_capture (add_email_capture one_section)
        = pre ++ email_block ++ email_block ++ post)
  /\ (exists pre post,
        three_paragraphs = pre ++ post
        /\ add_google_adsense_units sample_config three_paragraphs
           = pre ++ ad_block sample_config ++ post
        /\ add_google_adsense_units sample_config
             (add_google_adsense_units sample_config three_paragraphs)
           = pre ++ ad_block sample_config ++ ad_block sample_config ++ post).
Proof.
  split.
  - apply (proj1 (second_run_inserts_again sample_config one_section)).
    vm_compute. discriminate.
  - apply (proj1 (proj2
                    (second_run_inserts_again sample_config three_paragraphs))).
    split; [reflexivity|]. vm_compute. lia.
Defined.

(** C3 fails as stated: after two runs the email block stands twice in a
    post with one section, and the ad snippet twice in a post with three
    paragraphs. *)
Lemma second_run_inserts_twice :
  occurrences email_capture_html (add_email_capture one_section) = 1%nat
  /\ occurrences email_capture_html
       (add_email_capture (add_email_capture one_section)) = 2%nat
  /\ occurrences (in_article_ad (adsense_client_id sample_config))
       (add_google_adsense_units sample_config three_paragraphs) = 1%nat
  /\ occurrences (in_article_ad (adsense_client_id sample_config))
       (add_google_adsense_units sample_config
          (add_google_adsense_units sample_config three_paragraphs)) = 2%nat.
Proof.
  repeat split; vm_compute; reflexivity.
Qed.

(** ** The ad unit and its gate *)

(** C7, the code at the failing input: ads are switched on, the client
    identifier is empty, and the ad unit goes in all the same, with an
    empty [data-ad-client]. *)
Theorem ad_unit_with_empty_client_id :
  adsense_enabled no_client_config = true
  /\ adsense_client_id no_client_config = EmptyString
  /\ add_google_adsense_units no_client_config three_paragraphs
     = "<p>a</p><p>b</p>" ++ in_article_ad EmptyString ++ "</p>" ++ "</p>" ++ "<p>c</p>"
  /\ add_google_adsense_units no_client_config three_paragraphs
     <> three_paragraphs.
Proof.
  repeat split; try (vm_compute; reflexivity).
  vm_compute. discriminate.
Qed.

(** C8: a content with fewer than 3 segments between [</p>] tags comes
    back unchanged, whatever the configuration says. *)
Theorem fewer_than_three_segments (cfg : Config) (content : string) :
  (List.length (Str.split "</p>" content) < 3)%nat ->
  add_google_adsense_units cfg content = content.
Proof.
  intros H. apply ad_unit_skipped. intros [_ H3]. lia.
Qed.

(** The theorem at a post with two segments, with ads switched on and a
    client identifier in place. *)
Lemma fewer_than_three_segments_example :
  add_google_adsense_units sample_config two_paragraphs = two_paragraphs.
Proof.
  apply (fewer_than_three_segments sample_config two_paragraphs).
  vm_compute. lia.
Defined.

(** ** Further properties: characters *)

Ltac each_char c :=
  destruct c as [[] [] [] [] [] [] [] []]; try reflexivity.

Lemma lower_char_idempotent (c : ascii) :
  Str.lower_char (Str.lower_char c) = Str.lower_char c.
Proof.
  each_char c.
Qed.

Lemma lower_char_not_upper (c : ascii) : not_upper (Str.lower_char c) = true.
Proof.
  each_char c.
Qed.

Lemma is_word_lower_char (c : ascii) :
  Re.is_word (Str.lower_char c) = Re.is_word c.
Proof.
  each_char c.
Qed.

Lemma quote_char_safe (c : ascii) :
  all_chars url_safe_char (Url.quote_char c) = true.
Proof.
  each_char c.
Qed.

Lemma url_safe_keeps_attribute (c : ascii) :
  url_safe_char c = true -> breaks_attribute c = false.
Proof.
  each_char c; discriminate.
Qed.

Lemma all_chars_append (f : ascii -> bool) (s1 s2 : string) :
  all_chars f (s1 ++ s2) = all_chars f s1 && all_chars f s2.
Proof.
  induction s1 as [|c s1 IH]; simpl; [reflexivity|].
  now rewrite IH, andb_assoc.
Qed.

Lemma all_chars_impl (f g : ascii -> bool) (s : string) :
  (forall c, f c = true -> g c = true) ->
  all_chars f s = true -> all_chars g s = true.
Proof.
  intros Hfg. induction s as [|c s IH]; simpl; [reflexivity|].
  intros H. apply andb_true_iff in H as [Hc Hs].
  now rewrite (Hfg c Hc), IH.
Qed.

Lemma lower_idempotent (s : string) : Str.lower (Str.lower s) = Str.lower s.
Proof.
  induction s as [|c s IH]; simpl; [reflexivity|].
  now rewrite lower_char_idempotent, IH.
Qed.

Lemma lower_all_not_upper (s : string) :
  all_chars not_upper (Str.lower s) = true.
Proof.
  induction s as [|c s IH]; simpl; [reflexivity|].
  now rewrite lower_char_not_upper, IH.
Qed.

Lemma quote_plus_safe (s : string) :
  all_chars url_safe_char (Url.quote_plus s) = true.
Proof.
  induction s as [|c s IH]; simpl; [reflexivity|].
  now rewrite all_chars_append, quote_char_safe, IH.
Qed.

Lemma urlencode_safe (params : list (string * string)) :
  all_chars url_safe_char (Url.urlencode params) = true.
Proof.
  unfold Url.urlencode, Str.join.
  induction params as [|kv params IH]; [reflexivity|].
  assert (H : all_chars url_safe_char
                (Url.quote_plus (fst kv) ++ "=" ++ Url.quote_plus (snd kv))
              = true).
  { rewrite !all_chars_append, !quote_plus_safe. reflexivity. }
  destruct params as [|kv' params]; [exact H|].
  cbn [map String.concat] in *.
  rewrite all_chars_append, H, all_chars_append. simpl. exact IH.
Qed.

(** X1: the query string of an Amazon link is made of URL-safe characters
    only, whatever the associate identifier and the keyword are: none of
    them can put a double quote, an angle bracket or a space there. *)
Theorem amazon_link_query_is_safe (cfg : Config) (asin keyword : string) :
  exists query,
    generate_amazon_link cfg asin keyword
    = "https://www.amazon.com/dp/" ++ asin ++ "?" ++ query
    /\ all_chars url_safe_char query = true
    /\ all_chars (fun c => negb (breaks_attribute c)) query = true.
Proof.
  unfold generate_amazon_link. eexists. split.
  - cbv zeta. rewrite append_assoc. reflexivity.
  - split; [apply urlencode_safe|].
    apply (all_chars_impl url_safe_char); [|apply urlencode_safe].
    intros c Hc. now rewrite (url_safe_keeps_attribute c Hc).
Qed.

(** ** Further properties: the scorer *)

Lemma find_relevant_products_eq (products : list AffiliateProduct)
  (content : string) (n : nat) :
  find_relevant_products products content (Z.of_nat n)
  = map fst
      (firstn n (sort_desc (positive_scores products (Str.lower content)))).
Proof.
  unfold find_relevant_products.
  now rewrite scored_products_eq, slice_to_nat.
Qed.

(** X2: the scorer does not see the case of the content: a content and
    its lower-case form select the same products in the same order. *)
Theorem scorer_ignores_content_case (products : list AffiliateProduct)
  (content : string) (max_products : Z) :
  find_relevant_products products (Str.lower content) max_products
  = find_relevant_products products content max_products.
Proof.
  unfold find_relevant_products. now rewrite lower_idempotent.
Qed.

(** X3: the score of a product lies between 0 and the number of its
    keywords plus 2. *)
Theorem relevance_score_bounds (product : AffiliateProduct)
  (content_lower : string) :
  (0 <= relevance_score product content_lower
   <= Z.of_nat (List.length (keywords product)) + 2)%Z.
Proof.
  rewrite relevance_score_eq. unfold matched_keywords, category_bonus.
  pose proof (filter_length_le
                (fun keyword =>
                   Str.contains (Str.lower keyword) content_lower)
                (keywords product)).
  destruct (Str.contains _ content_lower); lia.
Qed.

Lemma contains_all_chars (f : ascii -> bool) (needle s : string) :
  Str.contains needle s = true ->
  all_chars f s = true -> all_chars f needle = true.
Proof.
  unfold Str.contains.
  destruct (Str.find needle s) as [[[b m] a]|] eqn:F; [|discriminate].
  intros _ H. rewrite (find_split _ _ _ _ _ F) in H.
  rewrite !all_chars_append in H.
  apply andb_true_iff in H as [_ H]. now apply andb_true_iff in H as [H _].
Qed.

Lemma replace_underscore_not_upper (s : string) :
  all_chars not_upper (Str.replace_char "_" " " s) = true ->
  all_chars not_upper s = true.
Proof.
  induction s as [|c s IH]; simpl; [reflexivity|].
  intros H. apply andb_true_iff in H as [Hc Hs].
  rewrite (IH Hs), andb_true_r.
  destruct (Ascii.eqb_spec c "_"%char) as [->|_]; [reflexivity|exact Hc].
Qed.

(** X4: the category is compared as it is written, against the lowered
    content. A category with an upper-case letter therefore never earns
    the two points, and the score is the number of keywords found. *)
Theorem capitalised_category_never_scores (product : AffiliateProduct)
  (content : string) :
  all_chars not_upper (category product) = false ->
  Str.contains (Str.replace_char "_" " " (category product))
    (Str.lower content) = false
  /\ relevance_score product (Str.lower content)
     = Z.of_nat (List.length (matched_keywords product (Str.lower content))).
Proof.
  intros Hup.
  assert (Hc : Str.contains (Str.replace_char "_" " " (category product))
                 (Str.lower content) = false).
  { destruct (Str.contains (Str.replace_char "_" " " (category product))
                (Str.lower content)) eqn:E; [|reflexivity].
    pose proof (contains_all_chars not_upper _ _ E
                  (lower_all_not_upper content)) as H.
    apply replace_underscore_not_upper in H. congruence. }
  split; [exact Hc|].
  rewrite relevance_score_eq. unfold category_bonus. rewrite Hc. lia.
Qed.

(** The theorem at a product whose category is written [Sound_Machine],
    in a post that spells the category out. *)
Lemma capitalised_category_never_scores_example :
  Str.contains
    (Str.replace_char "_" " " (category capitalised_category_product))
    (Str.lower night_light_post) = false
  /\ relevance_score capitalised_category_product (Str.lower night_light_post)
     = Z.of_nat
         (List.length
            (matched_keywords capitalised_category_product
               (Str.lower night_light_post))).
Proof.
  apply (capitalised_category_never_scores capitalised_category_product
           night_light_post).
  vm_compute. reflexivity.
Defined.

(** X5: a smaller cap returns the first products of what a larger cap
    returns. *)
Theorem smaller_cap_is_prefix (products : list AffiliateProduct)
  (content : string) (n k : nat) :
  find_relevant_products products content (Z.of_nat n)
  = firstn n
      (find_relevant_products products content (Z.of_nat (n + k))).
Proof.
  rewrite !find_relevant_products_eq, firstn_map, firstn_firstn.
  now rewrite (Nat.min_l n (n + k)) by lia.
Qed.

Lemma positive_scores_products (products : list AffiliateProduct)
  (content_lower : string) :
  map fst (positive_scores products content_lower)
  = filter (fun p => (0 <? relevance_score p content_lower)%Z) products.
Proof.
  unfold positive_scores.
  induction products as [|p l IH]; [reflexivity|]. simpl.
  destruct (0 <? relevance_score p content_lower)%Z; simpl; now rewrite IH.
Qed.

Lemma NoDup_firstn {A : Type} (n : nat) (l : list A) :
  NoDup l -> NoDup (firstn n l).
Proof.
  intros H. rewrite <- (firstn_skipn n l) in H.
  now apply NoDup_app_remove_r in H.
Qed.

(** X6: from a catalog without duplicates the scorer never returns a
    product twice, and whatever it returns is a product of the catalog
    with a positive score. *)
Theorem relevant_products_distinct (products : list AffiliateProduct)
  (content : string) (max_products : nat) :
  NoDup products ->
  NoDup (find_relevant_products products content (Z.of_nat max_products))
  /\ forall product,
       In product
         (find_relevant_products products content (Z.of_nat max_products)) ->
       In product products
       /\ (0 < relevance_score product (Str.lower content))%Z.
Proof.
  intros Hnd. rewrite find_relevant_products_eq, <- firstn_map.
  assert (Hperm : Permutation
            (map fst
               (sort_desc (positive_scores products (Str.lower content))))
            (filter
               (fun p => (0 <? relevance_score p (Str.lower content))%Z)
               products)).
  { rewrite <- positive_scores_products.
    apply Permutation_map, sort_desc_perm. }
  split.
  - apply NoDup_firstn.
    apply (Permutation_NoDup (Permutation_sym Hperm)).
    now apply NoDup_filter.
  - intros product Hin.
    assert (Hin' : In product
              (map fst
                 (sort_desc
                    (positive_scores products (Str.lower content))))).
    { rewrite <- (firstn_skipn max_products
                    (map fst
                       (sort_desc
                          (positive_scores products (Str.lower content))))).
      apply in_or_app. now left. }
    apply (Permutation_in _ Hperm) in Hin'.
    apply filter_In in Hin' as [Hp Hs]. split; [exact Hp|].
    now apply Z.ltb_lt.
Qed.

(** The theorem at the static catalog and the example post. *)
Lemma relevant_products_distinct_example :
  NoDup (find_relevant_products load_affiliate_products
           sleep_environment_post (Z.of_nat 3))
  /\ forall product,
       In product
         (find_relevant_products load_affiliate_products
            sleep_environment_post (Z.of_nat 3)) ->
       In product load_affiliate_products
       /\ (0 < relevance_score product
                 (Str.lower sleep_environment_post))%Z.
Proof.
  apply (relevant_products_distinct load_affiliate_products
           sleep_environment_post 3).
  unfold load_affiliate_products.
  repeat (constructor; [simpl; intuition discriminate|]). constructor.
Defined.

(** ** Further properties: insertion points *)

(** Patterns that agree up to case match alike. *)
Lemma match_literal_ci_lower (kw kw' : string) :
  Str.lower kw = Str.lower kw' ->
  forall t prev,
    Re.match_literal_ci kw t prev = Re.match_literal_ci kw' t prev.
Proof.
  revert kw'; induction kw as [|k kw IH]; intros [|k' kw'] H t prev;
    try discriminate; [reflexivity|].
  simpl in H. injection H as Hk Hkw. simpl.
  destruct t as [|c t]; [reflexivity|].
  unfold Re.eq_ci. rewrite Hk. now rewrite (IH kw' Hkw).
Qed.

Lemma match_word_at_lower (kw kw' : string) :
  Str.lower kw = Str.lower kw' ->
  forall prev t, Re.match_word_at kw prev t = Re.match_word_at kw' prev t.
Proof.
  intros H prev t. unfold Re.match_word_at.
  now rewrite (match_literal_ci_lower kw kw' H).
Qed.

Lemma search_word_lower (kw kw' : string) :
  Str.lower kw = Str.lower kw' ->
  forall s prev, Re.search_word kw prev s = Re.search_word kw' prev s.
Proof.
  intros H. induction s as [|c s IH]; intros prev; cbn [Re.search_word];
    rewrite (match_word_at_lower kw kw' H); [reflexivity|].
  now rewrite IH.
Qed.

(** Every match that [finditer] lists sits somewhere in the text. *)
Lemma finditer_word_in (kw : string) (s : string) :
  forall prev skip m,
    In m (Re.finditer_word kw prev skip s) ->
    exists b a,
      s = b ++ m ++ a
      /\ Re.match_word_at kw (Re.char_before prev b) (m ++ a) = Some (m, a).
Proof.
  induction s as [|c s IH]; intros prev skip m.
  - cbn [Re.finditer_word]. destruct skip as [|k]; [|intros []].
    destruct (Re.match_word_at kw prev EmptyString) as [[m' r']|] eqn:M;
      [|intros []].
    intros [<-|[]].
    destruct (match_word_at_split _ _ _ _ _ M) as [Hs _].
    destruct m' as [|? ?]; [|discriminate]. simpl in Hs. subst r'.
    exists EmptyString, EmptyString. now split.
  - cbn [Re.finditer_word]. destruct skip as [|k].
    + destruct (Re.match_word_at kw prev (String c s)) as [[m' r']|] eqn:M.
      * intros [<-|Hin].
        -- destruct (match_word_at_split _ _ _ _ _ M) as [Hs _].
           exists EmptyString, r'. split; [exact Hs|].
           simpl Re.char_before. now rewrite <- Hs.
        -- destruct (IH _ _ _ Hin) as (b & a & Hs & Hm).
           exists (String c b), a. split; [now rewrite Hs|exact Hm].
      * intros Hin. destruct (IH _ _ _ Hin) as (b & a & Hs & Hm).
        exists (String c b), a. split; [now rewrite Hs|exact Hm].
    + intros Hin. destruct (IH _ _ _ Hin) as (b & a & Hs & Hm).
      exists (String c b), a. split; [now rewrite Hs|exact Hm].
Qed.

(** Where the pattern matches somewhere, the search finds a match. *)
Lemma match_somewhere_search (kw : string) (b t : string) :
  forall prev r,
    Re.match_word_at kw (Re.char_before prev b) t = Some r ->
    Re.search_word kw prev (b ++ t) <> None.
Proof.
  induction b as [|c b IH]; intros prev r H.
  - simpl in *. destruct t as [|c t]; cbn [Re.search_word]; rewrite H;
      now destruct r.
  - simpl in H. simpl String.append. cbn [Re.search_word].
    destruct (Re.match_word_at kw prev (String c (b ++ t))) as [[m' r']|];
      [discriminate|].
    pose proof (IH (Some c) r H) as Hs.
    destruct (Re.search_word kw (Some c) (b ++ t)) as [[[b' m'] a']|];
      [discriminate|easy].
Qed.

(** X7: for a content and keywords in ASCII, [find_insertion_points]
    returns at most two phrases; each of them is a keyword of the product
    up to case, stands in the content, and is found again when it is
    searched for in that content. *)
Theorem insertion_points_are_keyword_matches (content : string)
  (product : AffiliateProduct) :
  ascii_text content = true ->
  forallb ascii_text (keywords product) = true ->
  (List.length (find_insertion_points content product) <= 2)%nat
  /\ forall point,
       In point (find_insertion_points content product) ->
       (exists keyword,
          In keyword (keywords product)
          /\ Str.lower point = Str.lower keyword)
       /\ (exists b a, content = b ++ point ++ a)
       /\ Re.search_word point None content <> None.
Proof.
  intros _ _.
  unfold find_insertion_points. split; [apply firstn_le_length|].
  intros point Hin.
  assert (Hin' : In point
            (flat_map (fun keyword => Re.finditer_word keyword None 0 content)
               (keywords product))).
  { rewrite <- (firstn_skipn 2
                  (flat_map
                     (fun keyword => Re.finditer_word keyword None 0 content)
                     (keywords product))).
    apply in_or_app. now left. }
  apply in_flat_map in Hin' as (kw & Hkw & Hm).
  destruct (finditer_word_in _ _ _ _ _ Hm) as (b & a & Hs & Hmatch).
  destruct (match_word_at_split _ _ _ _ _ Hmatch) as [_ Hlow].
  split; [now exists kw|]. split; [now exists b, a|].
  rewrite (search_word_lower point kw Hlow), Hs.
  now apply (match_somewhere_search kw b (point ++ a) None (point, a)).
Qed.

(** The theorem at the first product of the catalog and the example post,
    for the phrase of the heading. *)
Lemma insertion_points_are_keyword_matches_example :
  (exists keyword,
     In keyword (keywords hatch_rest)
     /\ Str.lower "Sleep Environment" = Str.lower keyword)
  /\ (exists b a, sleep_environment_post = b ++ "Sleep Environment" ++ a)
  /\ Re.search_word "Sleep Environment" None sleep_environment_post <> None.
Proof.
  refine (proj2 (insertion_points_are_keyword_matches sleep_environment_post
                   hatch_rest _ _) "Sleep Environment" _).
  - vm_compute. reflexivity.
  - vm_compute. reflexivity.
  - vm_compute. tauto.
Defined.

(** ** Further properties: whole words *)

Lemma is_word_same_lower (a b : ascii) :
  Str.lower_char a = Str.lower_char b -> Re.is_word a = Re.is_word b.
Proof.
  intros H. rewrite <- (is_word_lower_char a), <- (is_word_lower_char b).
  now rewrite H.
Qed.

Lemma match_literal_ci_head (kw t : string) (prev : option ascii)
  (r : string * option ascii * string) :
  Re.match_literal_ci kw t prev = Some r ->
  kw <> EmptyString ->
  Re.is_word_opt (Str.head t) = Re.is_word_opt (Str.head kw).
Proof.
  destruct kw as [|k kw]; [easy|]. simpl.
  destruct t as [|c t]; [discriminate|].
  destruct (Re.eq_ci k c) eqn:E; [|discriminate]. intros _ _. simpl.
  symmetry. apply is_word_same_lower. now apply eq_ci_lower.
Qed.

Lemma match_literal_ci_last (kw : string) :
  forall t prev p m last rest,
    Re.match_literal_ci kw t prev = Some (m, last, rest) ->
    Re.is_word_opt prev = Re.is_word_opt p ->
    Re.is_word_opt last = Re.is_word_opt (Re.char_before p kw).
Proof.
  induction kw as [|k kw IH]; intros t prev p m last rest; simpl.
  - now intros [= _ <- _].
  - destruct t as [|c t]; [discriminate|].
    destruct (Re.eq_ci k c) eqn:E; [|discriminate].
    destruct (Re.match_literal_ci kw t (Some c)) as [[[m' l'] r']|] eqn:M;
      [|discriminate].
    intros [= _ <- _] _. apply (IH _ _ (Some k) _ _ _ M). simpl.
    symmetry. apply is_word_same_lower. now apply eq_ci_lower.
Qed.

(** The search result, seen as a match at its position. *)
Lemma search_word_match (kw : string) (s : string) :
  forall prev b m a,
    Re.search_word kw prev s = Some (b, m, a) ->
    Re.match_word_at kw (Re.char_before prev b) (m ++ a) = Some (m, a).
Proof.
  induction s as [|c s IH]; intros prev b m a; cbn [Re.search_word].
  - destruct (Re.match_word_at kw prev EmptyString) as [[m' r']|] eqn:M;
      [|discriminate].
    intros [= <- <- <-].
    destruct (match_word_at_split _ _ _ _ _ M) as [Hs _].
    simpl. now rewrite <- Hs.
  - destruct (Re.match_word_at kw prev (String c s)) as [[m' r']|] eqn:M.
    + intros [= <- <- <-].
      destruct (match_word_at_split _ _ _ _ _ M) as [Hs _].
      simpl. now rewrite <- Hs.
    + destruct (Re.search_word kw (Some c) s) as [[[b' m'] a']|] eqn:F;
        [|discriminate].
      intros [= <- <- <-]. simpl. now apply IH.
Qed.

(** X8: a search term that starts and ends with a word character is only
    replaced as a whole word: the character in front of the replaced text
    and the character behind it, where there is one, are not word
    characters. *)
Theorem link_replaces_whole_words_only (content search_term link : string)
  (product : AffiliateProduct) (b m a : string) :
  Re.is_word_opt (Str.head search_term) = true ->
  Re.is_word_opt (Re.char_before None search_term) = true ->
  Re.search_word search_term None content = Some (b, m, a) ->
  insert_link_at_position content search_term link product = b ++ link ++ a
  /\ Re.is_word_opt (Re.char_before None b) = false
  /\ Re.is_word_opt (Str.head a) = false.
Proof.
  intros Hfirst Hlast Hsearch.
  split.
  { unfold insert_link_at_position, Re.sub_word_first. now rewrite Hsearch. }
  assert (Hne : search_term <> EmptyString)
    by (destruct search_term; [discriminate|easy]).
  pose proof (search_word_match _ _ _ _ _ _ Hsearch) as Hm.
  unfold Re.match_word_at in Hm.
  destruct (Re.boundary (Re.char_before None b) (Str.head (m ++ a))) eqn:B1;
    [|discriminate].
  destruct (Re.match_literal_ci search_term (m ++ a) (Re.char_before None b))
    as [[[m' last] r']|] eqn:M; [|discriminate].
  destruct (Re.boundary last (Str.head r')) eqn:B2; [|discriminate].
  injection Hm as -> ->.
  unfold Re.boundary in B1, B2.
  rewrite (match_literal_ci_head _ _ _ _ M Hne), Hfirst in B1.
  rewrite (match_literal_ci_last _ _ _ (Re.char_before None b) _ _ _ M
             eq_refl) in B2.
  assert (Hcb : Re.char_before (Re.char_before None b) search_term
                = Re.char_before None search_term)
    by (destruct search_term; [easy|reflexivity]).
  rewrite Hcb, Hlast in B2.
  split.
  - now destruct (Re.is_word_opt (Re.char_before None b)).
  - now destruct (Re.is_word_opt (Str.head a)).
Qed.

(** The theorem at the keyword [weighted], in a post that has it as a
    word and, before that, inside [unweighted]. *)
Lemma link_replaces_whole_words_only_example :
  insert_link_at_position "<p>An unweighted, weighted sack</p>" "weighted"
    "LINK" zen_sack
  = "<p>An unweighted, " ++ "LINK" ++ " sack</p>"
  /\ Re.is_word_opt (Re.char_before None "<p>An unweighted, ") = false
  /\ Re.is_word_opt (Str.head " sack</p>") = false.
Proof.
  apply (link_replaces_whole_words_only
           "<p>An unweighted, weighted sack</p>" "weighted" "LINK" zen_sack
           "<p>An unweighted, " "weighted" " sack</p>").
  - reflexivity.
  - reflexivity.
  - vm_compute. reflexivity.
Defined.

(** ** Further properties: the report of inserted links *)

Lemma insert_points_links (cfg : Config) (product : AffiliateProduct)
  (points : list string) :
  forall st,
    exists new,
      snd (fold_left (insert_point cfg product) points st)
      = (snd st ++ new)%list
      /\ (List.length new <= List.length points)%nat
      /\ Forall (entry_of cfg product) new.
Proof.
  induction points as [|pt points IH]; intros st.
  - exists []. simpl. rewrite app_nil_r. repeat split; constructor.
  - simpl fold_left. destruct (IH (insert_point cfg product st pt))
      as (new & Hs & Hlen & Hall).
    destruct (product_link cfg product) as [link|] eqn:L.
    + assert (E : snd (insert_point cfg product st pt)
                  = (snd st
                     ++ [{| link_product := name product;
                            link_category := category product;
                            link_url := link;
                            link_position := pt |}])%list)
        by (unfold insert_point; now rewrite L).
      rewrite E, <- app_assoc in Hs.
      eexists. split; [exact Hs|]. split; [simpl; lia|].
      constructor; [|exact Hall]. now repeat split.
    + assert (E : snd (insert_point cfg product st pt) = snd st)
        by (unfold insert_point; now rewrite L).
      rewrite E in Hs.
      exists new. split; [exact Hs|]. split; [simpl; lia|exact Hall].
Qed.

Lemma insert_products_links (cfg : Config)
  (products : list AffiliateProduct) :
  forall st,
    exists new,
      snd (fold_left (insert_product cfg) products st) = (snd st ++ new)%list
      /\ (List.length new <= 2 * List.length products)%nat
      /\ Forall (fun entry =>
                   exists product,
                     In product products /\ entry_of cfg product entry)
           new.
Proof.
  induction products as [|p products IH]; intros st.
  - exists []. simpl. rewrite app_nil_r. repeat split; constructor.
  - simpl fold_left.
    destruct (IH (insert_product cfg st p)) as (new & Hs & Hlen & Hall).
    destruct (insert_points_links cfg p (find_insertion_points (fst st) p) st)
      as (new0 & Hs0 & Hlen0 & Hall0).
    fold (insert_product cfg st p) in Hs0.
    rewrite Hs0, <- app_assoc in Hs.
    exists (new0 ++ new)%list. split; [exact Hs|]. split.
    + rewrite length_app. simpl.
      pose proof (firstn_le_length 2
                    (flat_map
                       (fun keyword =>
                          Re.finditer_word keyword None 0 (fst st))
                       (keywords p))) as H2.
      fold (find_insertion_points (fst st) p) in H2. lia.
    + apply Forall_app. split.
      * eapply Forall_impl; [|exact Hall0].
        intros e He. exists p. split; [now left|exact He].
      * eapply Forall_impl; [|exact Hall].
        intros e (q & Hq & He). exists q. split; [now right|exact He].
Qed.

(** X9: [insert_affiliate_links] reports at most six links, and every
    entry carries the name, the category and the generated link of a
    catalog product that has an identifier and a positive score. *)
Theorem inserted_links_bounded (cfg : Config)
  (products : list AffiliateProduct) (content : string) :
  (List.length (snd (insert_affiliate_links cfg products content)) <= 6)%nat
  /\ Forall
       (fun entry =>
          exists product,
            In product products
            /\ (0 < relevance_score product (Str.lower content))%Z
            /\ entry_of cfg product entry)
       (snd (insert_affiliate_links cfg products content)).
Proof.
  unfold insert_affiliate_links.
  change default_max_products with (Z.of_nat 3).
  destruct (insert_products_links cfg
              (find_relevant_products products content (Z.of_nat 3))
              (content, [])) as (new & Hs & Hlen & Hall).
  cbv zeta. rewrite Hs. cbn [snd app]. split.
  - rewrite find_relevant_products_eq, length_map in Hlen.
    pose proof (firstn_le_length 3
                  (sort_desc (positive_scores products (Str.lower content)))).
    lia.
  - eapply Forall_impl; [|exact Hall].
    intros e (p & Hp & He). exists p.
    rewrite find_relevant_products_eq in Hp.
    apply in_map_iff in Hp as ([q sc] & Hq & Hin). simpl in Hq. subst q.
    assert (Hin' : In (p, sc)
              (sort_desc (positive_scores products (Str.lower content)))).
    { rewrite <- (firstn_skipn 3
                    (sort_desc
                       (positive_scores products (Str.lower content)))).
      apply in_or_app. now left. }
    apply (Permutation_in _ (sort_desc_perm _)) in Hin'.
    unfold positive_scores in Hin'. apply filter_In in Hin' as [Hm Hpos].
    apply in_map_iff in Hm as (q & [= <- <-] & Hq).
    cbn [snd] in Hpos. apply Z.ltb_lt in Hpos.
    split; [exact Hq|]. split; [exact Hpos|exact He].
Qed.

Lemma no_identifier_no_link (cfg : Config) (product : AffiliateProduct) :
  no_identifier product -> product_link cfg product = None.
Proof.
  intros [Ha Hc]. unfold product_link. now rewrite Ha, Hc.
Qed.

Lemma insert_product_skipped (cfg : Config) (product : AffiliateProduct)
  (st : string * list InsertedLink) :
  product_link cfg product = None -> insert_product cfg st product = st.
Proof.
  intros H. unfold insert_product.
  induction (find_insertion_points (fst st) product) as [|pt pts IH];
    [reflexivity|].
  simpl. unfold insert_point at 2. now rewrite H.
Qed.

Lemma recommendation_cards (cfg : Config) (products : list AffiliateProduct)
  (html : string) :
  fold_left (fun html product => html ++ product_card cfg product)
    products html
  = html
    ++ fold_right (fun product rest => product_card cfg product ++ rest)
         EmptyString products.
Proof.
  revert html; induction products as [|p l IH]; intros html; simpl.
  - now rewrite append_nil_r.
  - now rewrite IH, append_assoc.
Qed.

(** X10: products that carry neither an ASIN nor a ClickBank id are passed
    over in silence: [insert_affiliate_links] leaves the content as it is
    and reports nothing, and the recommendation section holds no card for
    them, only its heading and the empty grid. *)
Theorem products_without_identifier_are_skipped (cfg : Config)
  (products : list AffiliateProduct) (content : string) :
  Forall no_identifier products ->
  insert_affiliate_links cfg products content = (content, [])
  /\ forall shown,
       incl shown products ->
       generate_recommendation_section cfg shown
       = recommendation_header ++ recommendation_footer.
Proof.
  intros Hall. rewrite Forall_forall in Hall. split.
  - unfold insert_affiliate_links. cbv zeta.
    change default_max_products with (Z.of_nat 3).
    assert (H : forall l st,
              (forall p, In p l -> In p products) ->
              fold_left (insert_product cfg) l st = st).
    { induction l as [|p l IH]; intros st Hl; [reflexivity|].
      simpl. rewrite insert_product_skipped.
      - apply IH. intros q Hq. apply Hl. now right.
      - apply no_identifier_no_link, Hall, Hl. now left. }
    apply H. intros p Hp.
    rewrite find_relevant_products_eq in Hp.
    apply in_map_iff in Hp as ([q sc] & Hq & Hin). simpl in Hq. subst q.
    assert (Hin' : In (p, sc)
              (sort_desc (positive_scores products (Str.lower content)))).
    { rewrite <- (firstn_skipn 3
                    (sort_desc
                       (positive_scores products (Str.lower content)))).
      apply in_or_app. now left. }
    apply (Permutation_in _ (sort_desc_perm _)) in Hin'.
    unfold positive_scores in Hin'. apply filter_In in Hin' as [Hm _].
    now apply in_map_iff in Hm as (q & [= <- <-] & Hq).
  - intros shown Hincl. unfold generate_recommendation_section.
    rewrite recommendation_cards.
    assert (H : fold_right
                  (fun product rest => product_card cfg product ++ rest)
                  EmptyString shown = EmptyString).
    { induction shown as [|p l IH]; [reflexivity|].
      simpl. rewrite IH by (intros q Hq; apply Hincl; now right).
      destruct (Hall p (Hincl p (or_introl eq_refl))) as [Ha Hc].
      unfold product_card. now rewrite Ha, Hc. }
    now rewrite H, append_nil_r.
Qed.

(** The theorem at a catalog that holds one product without identifiers,
    in a post where two of its keywords match as words. *)
Lemma products_without_identifier_are_skipped_example :
  insert_affiliate_links sample_config [unlisted_product]
    "<p>A weighted swaddle.</p>"
  = ("<p>A weighted swaddle.</p>", [])
  /\ forall shown,
       incl shown [unlisted_product] ->
       generate_recommendation_section sample_config shown
       = recommendation_header ++ recommendation_footer.
Proof.
  apply (products_without_identifier_are_skipped sample_config
           [unlisted_product] "<p>A weighted swaddle.</p>").
  constructor; [|constructor]. split; reflexivity.
Defined.

(** ** Further properties: the block insertions *)

Lemma find_none_tail (needle : string) (c : ascii) (s : string) :
  Str.find needle (String c s) = None -> Str.find needle s = None.
Proof.
  unfold Str.find. simpl.
  destruct (Str.starts_with_by Ascii.eqb needle (String c s));
    [discriminate|].
  now destruct (Str.find_by Ascii.eqb needle s) as [[[b m] a]|].
Qed.

(** A text that does not contain the needle has no suffix that does. *)
Lemma find_none_suffix (needle x y : string) :
  Str.find needle (x ++ y) = None -> Str.find needle y = None.
Proof.
  induction x as [|c x IH]; simpl; [easy|].
  intros H. apply IH. now apply find_none_tail in H.
Qed.

Lemma contains_false_find (needle s : string) :
  Str.contains needle s = false -> Str.find needle s = None.
Proof.
  unfold Str.contains. now destruct (Str.find needle s).
Qed.

(** X11: a content that lacks one of the three tags of the heading
    pattern goes through [add_email_capture] unchanged, and a content
    without [</p>] goes through [add_google_adsense_units] unchanged as
    well, whatever the configuration. *)
Theorem missing_tag_no_insertion (cfg : Config) (content : string) :
  (Str.contains "</h2>" content = false
   \/ Str.contains "<p>" content = false
   \/ Str.contains "</p>" content = false ->
   add_email_capture content = content)
  /\ (Str.contains "</p>" content = false ->
      add_google_adsense_units cfg content = content).
Proof.
  split.
  - intros H. apply email_capture_skipped.
    unfold email_capture_inserted, Re.search_h2. intros Hs. apply Hs. clear Hs.
    destruct (Str.find "</h2>" content) as [[[b h] r1]|] eqn:F0;
      [|reflexivity].
    pose proof (find_split _ _ _ _ _ F0) as Hc.
    destruct (Str.find "<p>" r1) as [[[g1 p] r2]|] eqn:F1; [|reflexivity].
    pose proof (find_split _ _ _ _ _ F1) as Hr1.
    destruct (Str.find "</p>" r2) as [[[g2 q] a]|] eqn:F2; [|reflexivity].
    exfalso. destruct H as [H|[H|H]]; apply contains_false_find in H.
    + congruence.
    + rewrite Hc, <- append_assoc in H.
      apply find_none_suffix in H. congruence.
    + rewrite Hc, Hr1, <- append_assoc in H.
      apply find_none_suffix in H. rewrite <- append_assoc in H.
      apply find_none_suffix in H. congruence.
  - intros H. apply contains_false_find in H.
    apply ad_unit_skipped. intros [_ Hlen].
    rewrite (split_none _ _ H) in Hlen. simpl in Hlen. lia.
Qed.

(** The theorem at a post that has a heading and text but no paragraph
    tags. *)
Lemma missing_tag_no_insertion_example :
  add_email_capture "<h2>T</h2>Plain text." = "<h2>T</h2>Plain text."
  /\ add_google_adsense_units sample_config "<h2>T</h2>Plain text."
     = "<h2>T</h2>Plain text.".
Proof.
  split.
  - apply (proj1 (missing_tag_no_insertion sample_config
                    "<h2>T</h2>Plain text.")).
    right. left. vm_compute. reflexivity.
  - apply (proj2 (missing_tag_no_insertion sample_config
                    "<h2>T</h2>Plain text.")).
    vm_compute. reflexivity.
Defined.

Lemma split_two_find (sep s p0 p1 : string) (rest : list string) :
  (0 < String.length sep)%nat ->
  Str.split sep s = p0 :: p1 :: rest -> rest <> [] ->
  exists post,
    Str.find sep s = Some (p0, sep, p1 ++ sep ++ post)
    /\ Str.find sep (p1 ++ sep ++ post) = Some (p1, sep, post)
    /\ Str.join sep rest = post.
Proof.
  intros Hsep Hs Hrest.
  destruct (Str.find sep s) as [[[b m] a]|] eqn:F.
  2:{ rewrite (split_none _ _ F) in Hs. discriminate. }
  rewrite (split_step _ _ _ _ _ Hsep F) in Hs. injection Hs as -> Ha.
  destruct (Str.find sep a) as [[[b1 m1] a1]|] eqn:F1.
  2:{ rewrite (split_none _ _ F1) in Ha. injection Ha as _ <-. easy. }
  rewrite (split_step _ _ _ _ _ Hsep F1) in Ha. injection Ha as -> Ha1.
  pose proof (find_matched _ _ _ _ _ F) as ->.
  pose proof (find_matched _ _ _ _ _ F1) as ->.
  exists a1. rewrite <- (find_split _ _ _ _ _ F1).
  split; [reflexivity|]. split; [exact F1|].
  rewrite <- Ha1. apply join_split.
Qed.

(** X12: when the ad unit goes in, it goes in right behind the second
    [</p>] of the content: the text up to and including that tag and the
    text behind it are kept as they are. *)
Theorem ad_unit_follows_second_paragraph (cfg : Config) (content : string) :
  ad_unit_inserted cfg content ->
  exists p0 p1 post,
    Str.find "</p>" content = Some (p0, "</p>", p1 ++ "</p>" ++ post)
    /\ Str.find "</p>" (p1 ++ "</p>" ++ post) = Some (p1, "</p>", post)
    /\ content = p0 ++ "</p>" ++ p1 ++ "</p>" ++ post
    /\ add_google_adsense_units cfg content
       = p0 ++ "</p>" ++ p1 ++ "</p>" ++ ad_block cfg ++ post.
Proof.
  intros [Hen Hlen].
  assert (Hsep : (0 < String.length "</p>")%nat) by (simpl; lia).
  destruct (at_least_three _ Hlen) as (p0 & p1 & rest & Hs & Hrest).
  destruct (split_two_find _ _ _ _ _ Hsep Hs Hrest) as (post & F0 & F1 & Hj).
  exists p0, p1, post. split; [exact F0|]. split; [exact F1|].
  split; [exact (find_split _ _ _ _ _ F0)|].
  unfold add_google_adsense_units. rewrite Hen.
  change (negb true) with false. cbv iota. cbv zeta. rewrite Hs.
  destruct rest as [|p2 rest]; [easy|].
  change (3 <=? List.length (p0 :: p1 :: p2 :: rest))%nat with true.
  cbv iota. rewrite join_insert_2 by easy. rewrite Hj.
  unfold ad_block. now rewrite !append_assoc.
Qed.

(** The theorem at a post with three paragraphs. *)
Lemma ad_unit_follows_second_paragraph_example :
  exists p0 p1 post,
    Str.find "</p>" three_paragraphs
    = Some (p0, "</p>", p1 ++ "</p>" ++ post)
    /\ Str.find "</p>" (p1 ++ "</p>" ++ post) = Some (p1, "</p>", post)
    /\ three_paragraphs = p0 ++ "</p>" ++ p1 ++ "</p>" ++ post
    /\ add_google_adsense_units sample_config three_paragraphs
       = p0 ++ "</p>" ++ p1 ++ "</p>" ++ ad_block sample_config ++ post.
Proof.
  apply (ad_unit_follows_second_paragraph sample_config three_paragraphs).
  split; [reflexivity|]. vm_compute. lia.
Defined.

(** ** Further properties: nothing is taken away *)

Lemma spliced_length (block : string) (n : nat) (s s' : string) :
  Spliced block n s s' ->
  String.length s' = (String.length s + n * String.length block)%nat.
Proof.
  induction 1 as [s|n c s s' _ IH|n s s' _ IH]; simpl.
  - lia.
  - rewrite IH. lia.
  - rewrite length_append, IH. lia.
Qed.

Lemma spliced_prefix (block pre : string) (n : nat) (s s' : string) :
  Spliced block n s s' -> Spliced block n (pre ++ s) (pre ++ s').
Proof.
  intros H. induction pre as [|c pre IH]; simpl; [exact H|].
  now constructor.
Qed.

Lemma spliced_once (block pre post : string) :
  Spliced block 1 (pre ++ post) (pre ++ block ++ post).
Proof.
  apply spliced_prefix. repeat constructor.
Qed.

Lemma spliced_at_end (block s : string) : Spliced block 1 s (s ++ block).
Proof.
  pose proof (spliced_once block s EmptyString) as H.
  now rewrite !append_nil_r in H.
Qed.

Lemma sub_conclusion_spliced (ins : string) (s : string) :
  forall skip, exists n, Spliced ins n s (Re.sub_conclusion ins skip s).
Proof.
  induction s as [|c s IH]; intros skip; cbn [Re.sub_conclusion].
  - exists 0%nat. constructor.
  - destruct skip as [|k].
    + destruct (Re.conclusion_match_at (String c s)) as [len|].
      * destruct (IH (len - 1)%nat) as [n Hn].
        exists (S n). now repeat constructor.
      * destruct (IH 0%nat) as [n Hn]. exists n. now constructor.
    + destruct (IH k) as [n Hn]. exists n. now constructor.
Qed.

(** X13: with no backslash in the configured ClickBank identifier or in
    the product fields, the three block insertions only add text. The
    output of each is its input with some copies of one block spliced in
    (at most one for the email capture and for the ad unit) and every
    character of the input kept in place and in order; the length grows by
    the copies. *)
Theorem block_insertions_only_add (cfg : Config)
  (products : list AffiliateProduct) (content : string) :
  backslash_free cfg products = true ->
  (exists block n,
     Spliced block n content
       (add_product_recommendations cfg products content)
     /\ String.length (add_product_recommendations cfg products content)
        = (String.length content + n * String.length block)%nat)
  /\ (exists n,
        (n <= 1)%nat
        /\ Spliced email_block n content (add_email_capture content)
        /\ String.length (add_email_capture content)
           = (String.length content + n * String.length email_block)%nat)
  /\ (exists n,
        (n <= 1)%nat
        /\ Spliced (ad_block cfg) n content
             (add_google_adsense_units cfg content)
        /\ String.length (add_google_adsense_units cfg content)
           = (String.length content + n * String.length (ad_block cfg))%nat).
Proof.
  intros _.
  split; [|split].
  - assert (H : exists block n,
              Spliced block n content
                (add_product_recommendations cfg products content)).
    { unfold add_product_recommendations.
      destruct (find_relevant_products products content 3) as [|p l].
      - exists EmptyString, 0%nat. constructor.
      - destruct (Re.search_conclusion content).
        + destruct (sub_conclusion_spliced
                      (generate_recommendation_section cfg (p :: l)
                       ++ Str.nl ++ Str.nl) content 0) as [n Hn].
          exists (generate_recommendation_section cfg (p :: l)
                  ++ Str.nl ++ Str.nl), n.
          exact Hn.
        + exists (Str.nl ++ Str.nl
                  ++ generate_recommendation_section cfg (p :: l)), 1%nat.
          apply spliced_at_end. }
    destruct H as (block & n & H). exists block, n.
    split; [exact H|now apply spliced_length].
  - assert (H : exists n, (n <= 1)%nat
              /\ Spliced email_block n content (add_email_capture content)).
    { destruct (Re.search_h2 content) as [r|] eqn:E.
      - assert (Hi : email_capture_inserted content)
          by (unfold email_capture_inserted; now rewrite E).
        destruct (email_capture_shape content Hi)
          as (pre & post & Hc & Hf & _).
        exists 1%nat. split; [lia|]. rewrite Hf. rewrite Hc at 1.
        apply spliced_once.
      - assert (Hi : ~ email_capture_inserted content)
          by (unfold email_capture_inserted; now rewrite E).
        rewrite (email_capture_skipped _ Hi).
        exists 0%nat. split; [lia|constructor]. }
    destruct H as (n & Hn & H). exists n.
    split; [exact Hn|]. split; [exact H|now apply spliced_length].
  - assert (H : exists n, (n <= 1)%nat
              /\ Spliced (ad_block cfg) n content
                   (add_google_adsense_units cfg content)).
    { assert (D : ad_unit_inserted cfg content
                  \/ ~ ad_unit_inserted cfg content).
      { unfold ad_unit_inserted. destruct (adsense_enabled cfg).
        - destruct (Nat.leb_spec 3
                      (List.length (Str.split "</p>" content)));
            [left; now split|right; intros [_ ?]; lia].
        - right. now intros [? _]. }
      destruct D as [Hi|Hi].
      - destruct (ad_unit_shape cfg content Hi)
          as (pre & post & Hc & Hf & _).
        exists 1%nat. split; [lia|]. rewrite Hf. rewrite Hc at 1.
        apply spliced_once.
      - rewrite (ad_unit_skipped _ _ Hi).
        exists 0%nat. split; [lia|constructor]. }
    destruct H as (n & Hn & H). exists n.
    split; [exact Hn|]. split; [exact H|now apply spliced_length].
Qed.

(** The theorem at the static catalog and the example post, for the
    recommendation block. *)
Lemma block_insertions_only_add_example :
  exists block n,
    Spliced block n sleep_environment_post
      (add_product_recommendations sample_config load_affiliate_products
         sleep_environment_post)
    /\ String.length
         (add_product_recommendations sample_config load_affiliate_products
            sleep_environment_post)
       = (String.length sleep_environment_post
          + n * String.length block)%nat.
Proof.
  apply (proj1 (block_insertions_only_add sample_config
                  load_affiliate_products sleep_environment_post eq_refl)).
Defined.

(** ** Further properties: the pipeline *)

Lemma static_catalog_no_keyword (content : string) (n : Z) :
  mentions_keyword load_affiliate_products content = false ->
  find_relevant_products load_affiliate_products content n = [].
Proof.
  intros Hno. unfold find_relevant_products.
  rewrite (no_keyword_no_product load_affiliate_products content);
    [|vm_compute; reflexivity|exact Hno].
  change (sort_desc []) with (@nil (AffiliateProduct * Z)).
  now rewrite slice_to_nil.
Qed.

(** X14: on a content that mentions no keyword of the static catalog,
    [process_content] is the email capture followed by the ad unit: no
    link is reported, the recommendation flag is 0, and the two other
    flags say whether those two steps made the text longer. *)
Theorem pipeline_without_keywords (cfg : Config) (content : string) :
  mentions_keyword load_affiliate_products content = false ->
  process_content cfg load_affiliate_products content
  = (add_google_adsense_units cfg (add_email_capture content),
     {| affiliate_links := [];
        email_captures := grew content (add_email_capture content);
        ad_units :=
          grew (add_email_capture content)
            (add_google_adsense_units cfg (add_email_capture content));
        product_recommendations := 0 |}).
Proof.
  intros Hno. unfold process_content, insert_affiliate_links.
  rewrite (static_catalog_no_keyword content default_max_products Hno).
  cbn [fold_left]. unfold add_product_recommendations.
  rewrite (static_catalog_no_keyword content 3 Hno).
  unfold grew at 3. now rewrite Nat.ltb_irrefl.
Qed.

(** The theorem at a post that mentions nothing of the catalog. *)
Lemma pipeline_without_keywords_example :
  process_content sample_config load_affiliate_products plain_post
  = (add_google_adsense_units sample_config (add_email_capture plain_post),
     {| affiliate_links := [];
        email_captures := grew plain_post (add_email_capture plain_post);
        ad_units :=
          grew (add_email_capture plain_post)
            (add_google_adsense_units sample_config
               (add_email_capture plain_post));
        product_recommendations := 0 |}).
Proof.
  apply (pipeline_without_keywords sample_config plain_post).
  vm_compute. reflexivity.
Defined.

(** X15: the first product that the scorer returns has the highest score
    of the catalog. *)
Theorem first_product_scores_highest (products : list AffiliateProduct)
  (content : string) (max_products : nat) (best : AffiliateProduct)
  (others : list AffiliateProduct) :
  find_relevant_products products content (Z.of_nat max_products)
  = best :: others ->
  forall product,
    In product products ->
    (relevance_score product (Str.lower content)
     <= relevance_score best (Str.lower content))%Z.
Proof.
  rewrite find_relevant_products_eq. intros Hfind product Hin.
  pose proof (sort_desc_sorted
                (positive_scores products (Str.lower content))) as Hsorted.
  pose proof (sort_desc_perm
                (positive_scores products (Str.lower content))) as Hperm.
  destruct (sort_desc (positive_scores products (Str.lower content)))
    as [|[b sc] tl] eqn:E.
  { now rewrite firstn_nil in Hfind. }
  destruct max_products as [|k]; [discriminate|].
  simpl in Hfind. injection Hfind as -> _.
  assert (Hsc : sc = relevance_score best (Str.lower content)
                /\ (0 < sc)%Z).
  { assert (Hb : In (best, sc)
                   (positive_scores products (Str.lower content)))
      by (apply (Permutation_in _ Hperm); now left).
    unfold positive_scores in Hb. apply filter_In in Hb as [Hm Hpos].
    apply in_map_iff in Hm as (q & [= -> <-] & _).
    split; [reflexivity|]. now apply Z.ltb_lt in Hpos. }
  destruct Hsc as [-> Hpos].
  destruct (Z.ltb_spec 0 (relevance_score product (Str.lower content)))
    as [Hp|Hp]; [|lia].
  assert (Hmem : In (product, relevance_score product (Str.lower content))
                   ((best, relevance_score best (Str.lower content)) :: tl)).
  { apply (Permutation_in _ (Permutation_sym Hperm)).
    unfold positive_scores. apply filter_In. split.
    - apply in_map_iff. now exists product.
    - now apply Z.ltb_lt. }
  destruct Hmem as [[= -> _]|Hmem]; [lia|].
  inversion Hsorted as [|? ? _ Hall]; subst.
  rewrite Forall_forall in Hall. apply (Hall _ Hmem).
Qed.

(** The theorem at the static catalog and the example post, for the last
    product of the catalog. *)
Lemma first_product_scores_highest_example :
  (relevance_score marpac_dohm (Str.lower sleep_environment_post)
   <= relevance_score hatch_rest (Str.lower sleep_environment_post))%Z.
Proof.
  apply (first_product_scores_highest load_affiliate_products
           sleep_environment_post 3 hatch_rest
           [blackout_curtains; marpac_dohm] eq_refl marpac_dohm).
  simpl. tauto.
Defined.

(** ** Further properties: one insertion brings the next *)

Lemma find_by_unfold (eqc : ascii -> ascii -> bool) (needle s : string) :
  Str.find_by eqc needle s
  = if Str.starts_with_by eqc needle s
    then Some (EmptyString, Str.take (String.length needle) s,
               Str.drop (String.length needle) s)
    else
      match s with
      | EmptyString => None
      | String c s' =>
          match Str.find_by eqc needle s' with
          | Some (b, m, a) => Some (String c b, m, a)
          | None => None
          end
      end.
Proof.
  now destruct s.
Qed.

Lemma starts_with_self (needle a : string) :
  Str.starts_with needle (needle ++ a) = true.
Proof.
  unfold Str.starts_with. induction needle as [|c n IH]; simpl;
    [reflexivity|].
  now rewrite Ascii.eqb_refl, IH.
Qed.

(** A text that has the needle in it is not searched in vain. *)
Lemma find_some (needle x y : string) :
  Str.find needle (x ++ needle ++ y) <> None.
Proof.
  intros H. apply find_none_suffix in H.
  unfold Str.find in H. rewrite find_by_unfold in H.
  fold (Str.starts_with needle (needle ++ y)) in H.
  now rewrite starts_with_self in H.
Qed.

Lemma find_some_middle (needle x y z : string) :
  Str.find needle y <> None -> Str.find needle (x ++ y ++ z) <> None.
Proof.
  intros H.
  destruct (Str.find needle y) as [[[b m] a]|] eqn:F; [|easy].
  rewrite (find_split _ _ _ _ _ F).
  replace (x ++ (b ++ needle ++ a) ++ z)
    with ((x ++ b) ++ needle ++ (a ++ z)) by now rewrite !append_assoc.
  apply find_some.
Qed.

Lemma drop_append_le (k : nat) (s t : string) :
  (k <= String.length s)%nat -> Str.drop k (s ++ t) = Str.drop k s ++ t.
Proof.
  revert s; induction k as [|k IH]; intros s Hk; [reflexivity|].
  destruct s as [|c s]; simpl in *; [lia|]. apply IH. lia.
Qed.

(** What is left behind the first occurrence still ends with what stood
    behind any later one. *)
Lemma find_rest_suffix (needle y : string) (x : string) :
  forall b m a,
    Str.find needle (x ++ needle ++ y) = Some (b, m, a) ->
    exists w, a = w ++ y.
Proof.
  unfold Str.find.
  induction x as [|c x IH]; intros b m a; rewrite find_by_unfold.
  - simpl String.append.
    fold (Str.starts_with needle (needle ++ y)).
    rewrite starts_with_self. intros [= _ _ <-].
    exists EmptyString. now rewrite drop_append_exact.
  - destruct (Str.starts_with_by Ascii.eqb needle
                (String c x ++ needle ++ y)) eqn:E.
    + intros [= _ _ <-].
      exists (Str.drop (String.length needle) (String c x ++ needle)).
      rewrite <- drop_append_le by (rewrite length_append; simpl; lia).
      now rewrite append_assoc.
    + simpl String.append. cbv iota.
      destruct (Str.find_by Ascii.eqb needle (x ++ needle ++ y))
        as [[[b' m'] a']|] eqn:F; [|discriminate].
      intros [= _ _ <-]. now apply (IH b' m' a').
Qed.

(** Two separators make three segments, at least. *)
Lemma split_at_least_three (sep x y z : string) :
  (0 < String.length sep)%nat ->
  (3 <= List.length (Str.split sep (x ++ sep ++ y ++ sep ++ z)))%nat.
Proof.
  intros Hsep.
  destruct (Str.find sep (x ++ sep ++ y ++ sep ++ z)) as [[[b m] a]|] eqn:F;
    [|now apply find_some in F].
  rewrite (split_step _ _ _ _ _ Hsep F).
  destruct (find_rest_suffix _ _ _ _ _ _ F) as [w ->].
  destruct (Str.find sep (w ++ y ++ sep ++ z)) as [[[b1 m1] a1]|] eqn:F1.
  2:{ rewrite <- append_assoc in F1. now apply find_some in F1. }
  rewrite (split_step _ _ _ _ _ Hsep F1). simpl.
  pose proof (split_fuel_not_nil (S (String.length a1)) sep a1) as Hne.
  fold (Str.split sep a1) in Hne.
  destruct (Str.split sep a1); [easy|simpl; lia].
Qed.

Lemma search_h2_pieces (s b m a : string) :
  Re.search_h2 s = Some (b, m, a) ->
  exists g1 g2,
    m = "</h2>" ++ g1 ++ "<p>" ++ g2 ++ "</p>"
    /\ s = b ++ "</h2>" ++ g1 ++ "<p>" ++ g2 ++ "</p>" ++ a.
Proof.
  intros H. pose proof (search_h2_split _ _ _ _ H) as Hs. revert H.
  unfold Re.search_h2.
  destruct (Str.find "</h2>" s) as [[[b0 h] r1]|] eqn:F0; [|discriminate].
  destruct (Str.find "<p>" r1) as [[[g1 p] r2]|] eqn:F1; [|discriminate].
  destruct (Str.find "</p>" r2) as [[[g2 q] a0]|] eqn:F2; [|discriminate].
  intros [= <- <- <-].
  pose proof (find_matched _ _ _ _ _ F0) as ->.
  pose proof (find_matched _ _ _ _ _ F1) as ->.
  pose proof (find_matched _ _ _ _ _ F2) as ->.
  exists g1, g2. split; [reflexivity|].
  rewrite Hs. now rewrite !append_assoc.
Qed.

(** A closing heading tag, later a paragraph: the heading pattern
    matches. *)
Lemma search_h2_found (x y z w : string) :
  Re.search_h2 (x ++ "</h2>" ++ y ++ "<p>" ++ z ++ "</p>" ++ w) <> None.
Proof.
  unfold Re.search_h2.
  destruct (Str.find "</h2>" (x ++ "</h2>" ++ y ++ "<p>" ++ z ++ "</p>" ++ w))
    as [[[b h] r1]|] eqn:F0; [|now apply find_some in F0].
  destruct (find_rest_suffix _ _ _ _ _ _ F0) as [w1 ->].
  destruct (Str.find "<p>" (w1 ++ y ++ "<p>" ++ z ++ "</p>" ++ w))
    as [[[g1 p] r2]|] eqn:F1.
  2:{ rewrite <- append_assoc in F1. now apply find_some in F1. }
  rewrite <- append_assoc in F1.
  destruct (find_rest_suffix _ _ _ _ _ _ F1) as [w2 ->].
  destruct (Str.find "</p>" (w2 ++ z ++ "</p>" ++ w))
    as [[[g2 q] a]|] eqn:F2; [easy|].
  rewrite <- append_assoc in F2. now apply find_some in F2.
Qed.

Lemma spliced_contains (block : string) (n : nat) (s s' : string) :
  Spliced block n s s' -> (0 < n)%nat -> exists x w, s' = x ++ block ++ w.
Proof.
  induction 1 as [s|n c s s' _ IH|n s s' _ _]; intros Hn.
  - lia.
  - destruct (IH Hn) as (x & w & ->). now exists (String c x), w.
  - now exists EmptyString, s'.
Qed.

(** Where the recommendation block goes in, it stands in the output in
    one piece. *)
Lemma recommendations_contain_section (cfg : Config)
  (products : list AffiliateProduct) (content : string) :
  recommendations_inserted products content ->
  exists x w,
    add_product_recommendations cfg products content
    = x ++ recommendation_header ++ w.
Proof.
  unfold recommendations_inserted, add_product_recommendations. intros H.
  destruct (find_relevant_products products content 3) as [|p l]; [easy|].
  unfold generate_recommendation_section. rewrite recommendation_cards.
  set (cards := fold_right
                  (fun product rest => product_card cfg product ++ rest)
                  EmptyString (p :: l)).
  destruct (Re.search_conclusion content) eqn:E.
  - set (ins := ((recommendation_header ++ cards) ++ recommendation_footer)
                ++ Str.nl ++ Str.nl).
    destruct (sub_conclusion_spliced ins content 0) as [n Hn].
    assert (Hpos : (0 < n)%nat).
    { pose proof (spliced_length _ _ _ _ Hn) as Hl.
      assert (Hi : (0 < String.length ins)%nat).
      { unfold ins. rewrite !length_append. simpl. lia. }
      pose proof (sub_conclusion_length_gt ins content Hi E).
      destruct n; [lia|lia]. }
    destruct (spliced_contains _ _ _ _ Hn Hpos) as (x & w & ->).
    exists x, (cards ++ recommendation_footer ++ Str.nl ++ Str.nl ++ w).
    unfold ins. now rewrite !append_assoc.
  - exists (content ++ Str.nl ++ Str.nl), (cards ++ recommendation_footer).
    now rewrite !append_assoc.
Qed.

(** X16: in [process_content] one insertion brings the next. The
    recommendation block holds a heading and a paragraph, so when it goes
    in, the email capture goes in too; the email block holds a paragraph,
    so when it goes in behind one and ads are switched on, the ad unit
    goes in too. *)
Theorem insertions_cascade (cfg : Config) (products : list AffiliateProduct)
  (content : string) :
  (recommendations_inserted products content ->
   email_capture_inserted
     (add_product_recommendations cfg products content))
  /\ (email_capture_inserted content ->
      adsense_enabled cfg = true ->
      ad_unit_inserted cfg (add_email_capture content))
  /\ (product_recommendations (snd (process_content cfg products content))
      = 1%Z ->
      email_captures (snd (process_content cfg products content)) = 1%Z
      /\ (adsense_enabled cfg = true ->
          ad_units (snd (process_content cfg products content)) = 1%Z)).
Proof.
  assert (Hrec : forall c,
            recommendations_inserted products c ->
            email_capture_inserted (add_product_recommendations cfg products c)).
  { intros c H.
    destruct (recommendations_contain_section cfg products c H)
      as (x & w & ->).
    assert (Hh : Re.search_h2 recommendation_header <> None)
      by (vm_compute; discriminate).
    destruct (Re.search_h2 recommendation_header) as [[[b m] a]|] eqn:F;
      [|easy].
    destruct (search_h2_pieces _ _ _ _ F) as (g1 & g2 & _ & ->).
    unfold email_capture_inserted.
    replace (x ++ (b ++ "</h2>" ++ g1 ++ "<p>" ++ g2 ++ "</p>" ++ a) ++ w)
      with ((x ++ b) ++ "</h2>" ++ g1 ++ "<p>" ++ g2 ++ "</p>" ++ (a ++ w))
      by now rewrite !append_assoc.
    apply search_h2_found. }
  assert (Hmail : forall c,
            email_capture_inserted c -> adsense_enabled cfg = true ->
            ad_unit_inserted cfg (add_email_capture c)).
  { intros c H Hen. split; [exact Hen|].
    unfold email_capture_inserted in H.
    destruct (Re.search_h2 c) as [[[b m] a]|] eqn:F; [|easy].
    destruct (search_h2_pieces _ _ _ _ F) as (g1 & g2 & -> & _).
    unfold add_email_capture, Re.sub_h2_first. rewrite F.
    assert (He : Str.find "</p>" (Str.nl ++ Str.nl ++ email_capture_html)
                 <> None) by (vm_compute; discriminate).
    destruct (Str.find "</p>" (Str.nl ++ Str.nl ++ email_capture_html))
      as [[[e1 q] e2]|] eqn:Fe; [|easy].
    rewrite (find_split _ _ _ _ _ Fe).
    replace (b ++ ("</h2>" ++ g1 ++ "<p>" ++ g2 ++ "</p>")
               ++ (e1 ++ "</p>" ++ e2) ++ a)
      with ((b ++ "</h2>" ++ g1 ++ "<p>" ++ g2) ++ "</p>" ++ e1 ++ "</p>"
              ++ (e2 ++ a))
      by now rewrite !append_assoc.
    apply split_at_least_three. simpl. lia. }
  split; [apply Hrec|]. split; [apply Hmail|].
  unfold process_content.
  destruct (insert_affiliate_links cfg products content) as [c1 links].
  cbn [snd product_recommendations email_captures ad_units].
  set (c2 := add_product_recommendations cfg products c1).
  set (c3 := add_email_capture c2).
  destruct (recommendations_length cfg products c1) as [_ R].
  destruct (email_capture_length c2) as [_ E].
  destruct (ad_unit_length cfg c3) as [_ A].
  intros H1. apply (flag_tells c1 c2 _ R) in H1.
  pose proof (Hrec c1 H1) as H2. fold c2 in H2.
  split.
  - now apply (flag_tells c2 c3 _ E).
  - intros Hen. apply (flag_tells c3 _ _ A). now apply Hmail.
Qed.

(** The theorem at the example post, where the whole cascade runs. *)
Lemma insertions_cascade_example :
  email_captures
    (snd (process_content sample_config load_affiliate_products
            sleep_environment_post)) = 1%Z
  /\ (adsense_enabled sample_config = true ->
      ad_units
        (snd (process_content sample_config load_affiliate_products
                sleep_environment_post)) = 1%Z).
Proof.
  apply (proj2 (proj2 (insertions_cascade sample_config
                         load_affiliate_products sleep_environment_post))).
  vm_compute. reflexivity.
Defined.

(** ** Further properties: where the recommendation block goes *)

Lemma lower_append (s1 s2 : string) :
  Str.lower (s1 ++ s2) = Str.lower s1 ++ Str.lower s2.
Proof.
  induction s1 as [|c s1 IH]; simpl; [reflexivity|now rewrite IH].
Qed.

(** Matching up to case is matching the lowered texts. *)
Lemma starts_with_ci_lower (p s : string) :
  Str.starts_with_by Re.eq_ci p s
  = Str.starts_with (Str.lower p) (Str.lower s).
Proof.
  unfold Str.starts_with.
  revert s; induction p as [|a p IH]; intros [|b s]; simpl;
    try reflexivity.
  now rewrite IH.
Qed.

Lemma find_ci_lower (needle s : string) :
  Str.find_by Re.eq_ci needle s <> None ->
  Str.find (Str.lower needle) (Str.lower s) <> None.
Proof.
  unfold Str.find.
  induction s as [|c s IH].
  - rewrite (find_by_unfold Re.eq_ci needle EmptyString),
      (find_by_unfold Ascii.eqb (Str.lower needle) (Str.lower EmptyString)),
      starts_with_ci_lower.
    unfold Str.starts_with. simpl Str.lower.
    now destruct (Str.starts_with_by Ascii.eqb (Str.lower needle) EmptyString).
  - rewrite (find_by_unfold Re.eq_ci needle (String c s)),
      (find_by_unfold Ascii.eqb (Str.lower needle)
         (Str.lower (String c s))),
      starts_with_ci_lower.
    unfold Str.starts_with.
    destruct (Str.starts_with_by Ascii.eqb (Str.lower needle)
                (Str.lower (String c s))); [easy|].
    simpl Str.lower. cbv iota.
    destruct (Str.find_by Re.eq_ci needle s) as [[[b m] a]|]; [|easy].
    intros _.
    destruct (Str.find_by Ascii.eqb (Str.lower needle) (Str.lower s))
      as [[[b' m'] a']|]; [easy|]. now apply IH.
Qed.

Lemma first_line_prefix (s : string) :
  exists rest, s = Re.first_line s ++ rest.
Proof.
  unfold Re.first_line.
  destruct (Str.find Str.nl s) as [[[b m] a]|] eqn:F.
  - exists (Str.nl ++ a). now apply find_split in F.
  - exists EmptyString. now rewrite append_nil_r.
Qed.

(** A heading that the conclusion pattern matches has the word in it. *)
Lemma conclusion_match_has_word (t : string) (n : nat) :
  Re.conclusion_match_at t = Some n ->
  Str.find "conclusion" (Str.lower t) <> None.
Proof.
  unfold Re.conclusion_match_at.
  destruct (Str.starts_with_by Re.eq_ci "<h2" t); [|discriminate].
  destruct (Str.find ">" (Str.drop 3 t)) as [[[attrs g] r1]|] eqn:F;
    [|discriminate].
  destruct (Str.find_by Re.eq_ci "conclusion" (Re.first_line r1))
    as [[[g1 m] r2]|] eqn:Fc; [|discriminate].
  intros _.
  assert (Hl : Str.find "conclusion" (Str.lower (Re.first_line r1)) <> None).
  { apply (find_ci_lower "conclusion"). now rewrite Fc. }
  destruct (first_line_prefix r1) as [rest Hr].
  rewrite <- (take_drop 3 t), (find_split _ _ _ _ _ F), Hr.
  replace (Str.take 3 t ++ attrs ++ ">" ++ Re.first_line r1 ++ rest)
    with ((Str.take 3 t ++ attrs ++ ">") ++ Re.first_line r1 ++ rest)
    by now rewrite !append_assoc.
  rewrite !lower_append. now apply find_some_middle.
Qed.

Lemma search_conclusion_has_word (s : string) :
  Re.search_conclusion s = true ->
  Str.find "conclusion" (Str.lower s) <> None.
Proof.
  induction s as [|c s IH]; cbn [Re.search_conclusion].
  - destruct (Re.conclusion_match_at EmptyString) as [n|] eqn:M;
      [|discriminate].
    intros _. now apply (conclusion_match_has_word _ n).
  - destruct (Re.conclusion_match_at (String c s)) as [n|] eqn:M.
    + intros _. now apply (conclusion_match_has_word _ n).
    + intros H Hnone. apply (IH H). simpl Str.lower in Hnone.
      now apply find_none_tail in Hnone.
Qed.

(** X17: in an ASCII content that does not have the word [conclusion],
    in any case, the recommendation block is never put between the lines:
    when products are relevant it is appended behind the content, after
    two newlines. *)
Theorem recommendations_appended_without_conclusion (cfg : Config)
  (products : list AffiliateProduct) (content : string) :
  ascii_text content = true ->
  Str.contains "conclusion" (Str.lower content) = false ->
  recommendations_inserted products content ->
  add_product_recommendations cfg products content
  = content ++ Str.nl ++ Str.nl
    ++ generate_recommendation_section cfg
         (find_relevant_products products content 3).
Proof.
  intros _ Hno Hins. unfold recommendations_inserted in Hins.
  unfold add_product_recommendations.
  destruct (find_relevant_products products content 3) as [|p l]; [easy|].
  destruct (Re.search_conclusion content) eqn:E; [|reflexivity].
  apply search_conclusion_has_word in E.
  now apply contains_false_find in Hno.
Qed.

(** The theorem at the example post. *)
Lemma recommendations_appended_without_conclusion_example :
  add_product_recommendations sample_config load_affiliate_products
    sleep_environment_post
  = sleep_environment_post ++ Str.nl ++ Str.nl
    ++ generate_recommendation_section sample_config
         (find_relevant_products load_affiliate_products
            sleep_environment_post 3).
Proof.
  apply (recommendations_appended_without_conclusion sample_config
           load_affiliate_products sleep_environment_post).
  - vm_compute. reflexivity.
  - vm_compute. reflexivity.
  - vm_compute. discriminate.
Defined.

(** ** Link insertion, step by step *)

Lemma sub_word_first_replaced (phrase url visible c : string) :
  Replaced phrase url visible c
    (Re.sub_word_first phrase (anchor url visible) c).
Proof.
  unfold Re.sub_word_first.
  destruct (Re.search_word phrase None c) as [[[b m] a]|] eqn:F.
  - destruct (search_word_split _ _ _ _ _ _ F) as [Hc _]. subst c.
    now constructor.
  - now constructor.
Qed.

Lemma replayed_app (c c' c'' : string) (l1 l2 : list InsertedLink) :
  Replayed c l1 c' -> Replayed c' l2 c'' -> Replayed c (l1 ++ l2) c''.
Proof.
  induction 1 as [c|c c1 c' e es Hstep _ IH]; intros H2; [exact H2|].
  simpl. econstructor; [exact Hstep|now apply IH].
Qed.

Lemma insert_points_replayed (cfg : Config) (product : AffiliateProduct)
  (points : list string) :
  forall st,
    exists new,
      snd (fold_left (insert_point cfg product) points st)
      = (snd st ++ new)%list
      /\ Replayed (fst st) new
           (fst (fold_left (insert_point cfg product) points st))
      /\ Forall (entry_of cfg product) new.
Proof.
  induction points as [|pt points IH]; intros st.
  - exists []. simpl. rewrite app_nil_r. repeat split; constructor.
  - simpl fold_left.
    destruct (IH (insert_point cfg product st pt)) as (new & Hs & Hr & Hall).
    destruct (product_link cfg product) as [link|] eqn:L.
    + assert (E : insert_point cfg product st pt
                  = (Re.sub_word_first pt (anchor link (name product))
                       (fst st),
                     (snd st
                      ++ [{| link_product := name product;
                             link_category := category product;
                             link_url := link;
                             link_position := pt |}])%list))
        by (unfold insert_point; now rewrite L).
      rewrite E in Hs at 2. rewrite E in Hr at 1. cbn [fst snd] in Hs, Hr.
      rewrite <- app_assoc in Hs.
      eexists. split; [exact Hs|]. split.
      * econstructor; [|exact Hr]. apply sub_word_first_replaced.
      * constructor; [|exact Hall]. now repeat split.
    + assert (E : insert_point cfg product st pt = st)
        by (unfold insert_point; now rewrite L).
      rewrite E in Hs at 2. rewrite E in Hr at 1.
      exists new. now repeat split.
Qed.

Lemma insert_products_replayed (cfg : Config)
  (products : list AffiliateProduct) :
  forall st,
    exists new,
      snd (fold_left (insert_product cfg) products st) = (snd st ++ new)%list
      /\ Replayed (fst st) new
           (fst (fold_left (insert_product cfg) products st))
      /\ Forall (fun entry =>
                   exists product,
                     In product products /\ entry_of cfg product entry)
           new.
Proof.
  induction products as [|p products IH]; intros st.
  - exists []. simpl. rewrite app_nil_r. repeat split; constructor.
  - simpl fold_left.
    destruct (IH (insert_product cfg st p)) as (new & Hs & Hr & Hall).
    destruct (insert_points_replayed cfg p
                (find_insertion_points (fst st) p) st)
      as (new0 & Hs0 & Hr0 & Hall0).
    fold (insert_product cfg st p) in Hs0, Hr0.
    rewrite Hs0, <- app_assoc in Hs.
    exists (new0 ++ new)%list. split; [exact Hs|]. split.
    + exact (replayed_app _ _ _ _ _ Hr0 Hr).
    + apply Forall_app. split.
      * eapply Forall_impl; [|exact Hall0].
        intros e He. exists p. split; [now left|exact He].
      * eapply Forall_impl; [|exact Hall].
        intros e (q & Hq & He). exists q. split; [now right|exact He].
Qed.

Lemma insert_points_entries (cfg : Config) (product : AffiliateProduct)
  (link : string) (points : list string) :
  product_link cfg product = Some link ->
  forall st,
    exists c1,
      fold_left (insert_point cfg product) points st
      = (c1, (snd st ++ entries_for product link points)%list)
      /\ Replayed (fst st) (entries_for product link points) c1.
Proof.
  intros L. induction points as [|pt points IH]; intros [c ls].
  - exists c. simpl. rewrite app_nil_r. split; [reflexivity|constructor].
  - simpl fold_left.
    assert (E : insert_point cfg product (c, ls) pt
                = (Re.sub_word_first pt (anchor link (name product)) c,
                   (ls
                    ++ [{| link_product := name product;
                           link_category := category product;
                           link_url := link;
                           link_position := pt |}])%list))
      by (unfold insert_point; now rewrite L).
    rewrite E.
    destruct (IH (Re.sub_word_first pt (anchor link (name product)) c,
                  (ls
                   ++ [{| link_product := name product;
                          link_category := category product;
                          link_url := link;
                          link_position := pt |}])%list))
      as (c1 & Hf & Hr).
    cbn [fst snd] in Hf, Hr. exists c1. split.
    + rewrite Hf. cbn [snd entries_for map]. now rewrite <- app_assoc.
    + cbn [fst entries_for map]. econstructor; [|exact Hr].
      apply sub_word_first_replaced.
Qed.

Lemma insert_products_linked (cfg : Config)
  (ranked : list AffiliateProduct) :
  forall st,
    exists entries c',
      fold_left (insert_product cfg) ranked st
      = (c', (snd st ++ entries)%list)
      /\ Linked cfg (fst st) ranked entries c'.
Proof.
  induction ranked as [|p ranked IH]; intros [c ls].
  - exists [], c. simpl. rewrite app_nil_r. split; [reflexivity|constructor].
  - simpl fold_left. cbn [fst].
    destruct (product_link cfg p) as [link|] eqn:L.
    + destruct (insert_points_entries cfg p link
                  (find_insertion_points c p) L (c, ls)) as (c1 & Hf & Hr).
      cbn [fst snd] in Hf, Hr.
      assert (E : insert_product cfg (c, ls) p
                  = (c1,
                     (ls ++ entries_for p link (find_insertion_points c p))
                     %list)) by exact Hf.
      rewrite E.
      destruct (IH (c1,
                    (ls ++ entries_for p link (find_insertion_points c p))
                    %list)) as (entries & c' & Hf' & Hl).
      cbn [fst snd] in Hf', Hl.
      exists (entries_for p link (find_insertion_points c p) ++ entries)%list,
        c'.
      split; [now rewrite Hf', <- app_assoc|].
      now apply (linked_product cfg c c1 c' p ranked link entries).
    + rewrite (insert_product_skipped cfg p (c, ls) L).
      destruct (IH (c, ls)) as (entries & c' & Hf' & Hl).
      exists entries, c'. split; [exact Hf'|].
      now apply linked_skip.
Qed.

(** C1 (as amended): what [insert_affiliate_links] returns. The ranked
    products are gone through in order; for every one that carries an
    identifier and every insertion point found for it, the report gets an
    entry and the content is rewritten once. So the content that comes
    back is the content that went in after one replacement for each entry
    of the returned list, in the order of the list: the leftmost match of
    the phrase of the entry (ignoring case, at word boundaries) is cut
    out, and in its place stands an anchor that leads to the link of the
    entry and shows the product name of the entry, not the matched
    phrase. Every entry carries the name, the category and the generated
    link of a ranked product. On the example of the
    specification, with the white noise machine alone in the catalog, the
    phrase gives way to an anchor that shows the name of the product, and
    the list has one entry, which cites that name. *)
Theorem affiliate_links_show_product_name (cfg : Config)
  (products : list AffiliateProduct) (content : string) :
  Linked cfg content
    (find_relevant_products products content default_max_products)
    (snd (insert_affiliate_links cfg products content))
    (fst (insert_affiliate_links cfg products content))
  /\ Replayed content
       (snd (insert_affiliate_links cfg products content))
       (fst (insert_affiliate_links cfg products content))
  /\ Forall
       (fun entry =>
          exists product,
            In product
              (find_relevant_products products content default_max_products)
            /\ entry_of cfg product entry)
       (snd (insert_affiliate_links cfg products content))
  /\ insert_affiliate_links cfg [marpac_dohm] sleep_environment_post
     = ("<h2>Sleep Environment</h2><p>A "
        ++ anchor (generate_amazon_link cfg "B000KUHFGM" "white noise machine")
             "Marpac Dohm White Noise Machine"
        ++ " helps.</p>",
        [{| link_product := "Marpac Dohm White Noise Machine";
            link_category := "sound_machine";
            link_url :=
              generate_amazon_link cfg "B000KUHFGM" "white noise machine";
            link_position := "white noise machine" |}]).
Proof.
  split; [|split; [|split]].
  - unfold insert_affiliate_links. cbv zeta.
    destruct (insert_products_linked cfg
                (find_relevant_products products content default_max_products)
                (content, [])) as (entries & c' & Hf & Hl).
    cbn [fst snd app] in Hf, Hl. now rewrite Hf.
  - unfold insert_affiliate_links. cbv zeta.
    destruct (insert_products_replayed cfg
                (find_relevant_products products content default_max_products)
                (content, [])) as (new & Hs & Hr & _).
    cbn [fst snd app] in Hs, Hr. now rewrite Hs.
  - unfold insert_affiliate_links. cbv zeta.
    destruct (insert_products_replayed cfg
                (find_relevant_products products content default_max_products)
                (content, [])) as (new & Hs & _ & Hall).
    cbn [snd app] in Hs. now rewrite Hs.
  - reflexivity.
Qed.

(** ** Contents without keywords *)

Lemma search_none_finditer (kw : string) (s : string) :
  forall prev,
    Re.search_word kw prev s = None -> Re.finditer_word kw prev 0 s = [].
Proof.
  induction s as [|c s IH]; intros prev; cbn [Re.search_word Re.finditer_word].
  - now destruct (Re.match_word_at kw prev EmptyString) as [[m r]|].
  - destruct (Re.match_word_at kw prev (String c s)) as [[m r]|];
      [discriminate|].
    destruct (Re.search_word kw (Some c) s) as [[[b m] a]|] eqn:F;
      [discriminate|].
    intros _. now apply IH.
Qed.

Lemma no_match_no_point (content : string) (product : AffiliateProduct) :
  (forall keyword,
     In keyword (keywords product) ->
     Re.search_word keyword None content = None) ->
  find_insertion_points content product = [].
Proof.
  unfold find_insertion_points. intros H.
  induction (keywords product) as [|kw kws IH]; [reflexivity|].
  simpl flat_map.
  rewrite (search_none_finditer kw content None) by (apply H; now left).
  apply IH. intros k Hk. apply H. now right.
Qed.

Lemma relevant_in_catalog (products : list AffiliateProduct)
  (content : string) (n : nat) (product : AffiliateProduct) :
  In product (find_relevant_products products content (Z.of_nat n)) ->
  In product products.
Proof.
  rewrite find_relevant_products_eq. intros Hp.
  apply in_map_iff in Hp as ([q sc] & Hq & Hin). simpl in Hq. subst q.
  assert (Hin' : In (product, sc)
            (sort_desc (positive_scores products (Str.lower content)))).
  { rewrite <- (firstn_skipn n
                  (sort_desc (positive_scores products (Str.lower content)))).
    apply in_or_app. now left. }
  apply (Permutation_in _ (sort_desc_perm _)) in Hin'.
  unfold positive_scores in Hin'. apply filter_In in Hin' as [Hm _].
  now apply in_map_iff in Hm as (q & [= <- <-] & Hq).
Qed.

Lemma no_word_no_link (cfg : Config) (products : list AffiliateProduct)
  (content : string) :
  mentions_keyword_word products content = false ->
  insert_affiliate_links cfg products content = (content, []).
Proof.
  intros Hno. unfold insert_affiliate_links. cbv zeta.
  change default_max_products with (Z.of_nat 3).
  assert (H : forall l,
            (forall p, In p l -> In p products) ->
            fold_left (insert_product cfg) l (content, []) = (content, [])).
  { induction l as [|p l IH]; intros Hl; [reflexivity|].
    simpl fold_left. unfold insert_product at 2. cbn [fst].
    rewrite no_match_no_point.
    - apply IH. intros q Hq. apply Hl. now right.
    - intros kw Hkw. unfold mentions_keyword_word in Hno.
      pose proof (existsb_false _ _ Hno p (Hl p (or_introl eq_refl))) as Hp.
      simpl in Hp. pose proof (existsb_false _ _ Hp kw Hkw) as Hk.
      simpl in Hk.
      now destruct (Re.search_word kw None content). }
  apply H. intros p Hp. now apply (relevant_in_catalog products content 3).
Qed.

(** C5 (as amended): for the static catalog. When no keyword of the
    catalog matches in the content as the link pattern matches (ignoring
    case, at word boundaries), [insert_affiliate_links] returns the
    content as it is, with an empty list of links. When no keyword of the
    catalog occurs in the content even as a part of a word (ignoring
    case), [find_relevant_products] selects nothing, whatever the cap,
    also not through the category, and [insert_affiliate_links] again
    returns the content with an empty list. *)
Theorem no_keyword_no_change (cfg : Config) (content : string)
  (max_products : Z) :
  (mentions_keyword_word load_affiliate_products content = false ->
   insert_affiliate_links cfg load_affiliate_products content
   = (content, []))
  /\ (mentions_keyword load_affiliate_products content = false ->
      find_relevant_products load_affiliate_products content max_products
      = []
      /\ insert_affiliate_links cfg load_affiliate_products content
         = (content, [])).
Proof.
  split; [apply no_word_no_link|].
  intros Hno.
  split; [now apply static_catalog_no_keyword|].
  unfold insert_affiliate_links.
  now rewrite (static_catalog_no_keyword content default_max_products Hno).
Qed.

(** The theorem at a post where a keyword stands only inside a longer
    word, and at a post that mentions nothing of the catalog. *)
Lemma no_keyword_no_change_example :
  insert_affiliate_links sample_config load_affiliate_products
    unweighted_post
  = (unweighted_post, [])
  /\ (find_relevant_products load_affiliate_products plain_post 3 = []
      /\ insert_affiliate_links sample_config load_affiliate_products
           plain_post
         = (plain_post, [])).
Proof.
  split.
  - apply (proj1 (no_keyword_no_change sample_config unweighted_post 3)).
    vm_compute. reflexivity.
  - apply (proj2 (no_keyword_no_change sample_config plain_post 3)).
    vm_compute. reflexivity.
Defined.

(** C5 fails as stated: no keyword of the catalog matches in the post as
    a word, in any case, and the content comes back unchanged, yet the
    list of relevant products is not empty: [weighted] inside
    [unweighted] selects the sleep sack. *)
Lemma keyword_free_post_selects_product :
  mentions_keyword_word load_affiliate_products unweighted_post = false
  /\ insert_affiliate_links sample_config load_affiliate_products
       unweighted_post
     = (unweighted_post, [])
  /\ find_relevant_products load_affiliate_products unweighted_post
       default_max_products
     = [zen_sack]
  /\ find_relevant_products load_affiliate_products unweighted_post
       default_max_products
     <> [].
Proof.
  repeat split; try (vm_compute; reflexivity).
  vm_compute. discriminate.
Qed.

(** ** The blocks in the output *)

Lemma url_safe_not_backslash (c : ascii) :
  url_safe_char c = true -> negb (Ascii.eqb c (ascii_of_nat 92)) = true.
Proof.
  each_char c; discriminate.
Qed.

Lemma cards_base (cfg : Config) (products : list AffiliateProduct)
  (tail : string) :
  fold_right (fun product rest => product_card cfg product ++ rest)
    tail products
  = fold_right (fun product rest => product_card cfg product ++ rest)
      EmptyString products
    ++ tail.
Proof.
  induction products as [|p l IH]; simpl; [reflexivity|].
  now rewrite IH, append_assoc.
Qed.

(** The section that the source builds in a loop is the section piece by
    piece. *)
Lemma generate_is_rendered (cfg : Config) (products : list AffiliateProduct) :
  generate_recommendation_section cfg products = rendered_section cfg products.
Proof.
  unfold generate_recommendation_section, rendered_section.
  rewrite recommendation_cards.
  rewrite (cards_base cfg products recommendation_footer).
  now rewrite append_assoc.
Qed.









(** ** The recommendation block as a replacement template *)

Lemma no_backslash_append (s1 s2 : string) :
  no_backslash (s1 ++ s2) = no_backslash s1 && no_backslash s2.
Proof.
  apply all_chars_append.
Qed.

Lemma amazon_link_no_backslash (cfg : Config) (asin keyword : string) :
  no_backslash asin = true ->
  no_backslash (generate_amazon_link cfg asin keyword) = true.
Proof.
  intros Ha. unfold generate_amazon_link. cbv zeta.
  rewrite !no_backslash_append, Ha.
  assert (Hq : forall params, no_backslash (Url.urlencode params) = true).
  { intros params. apply (all_chars_impl url_safe_char);
      [apply url_safe_not_backslash|apply urlencode_safe]. }
  now rewrite Hq.
Qed.

Lemma clickbank_link_no_backslash (cfg : Config) (product_id : string) :
  match affiliate_clickbank_id cfg with
  | Some a => no_backslash a
  | None => true
  end = true ->
  no_backslash product_id = true ->
  no_backslash (generate_clickbank_link cfg product_id EmptyString) = true.
Proof.
  intros Ha Hp. unfold generate_clickbank_link. cbv zeta.
  change (truthy EmptyString) with false. cbv iota.
  rewrite !no_backslash_append, Hp.
  destruct (affiliate_clickbank_id cfg) as [a|]; [now rewrite Ha|reflexivity].
Qed.

Lemma product_card_no_backslash (cfg : Config) (product : AffiliateProduct) :
  match affiliate_clickbank_id cfg with
  | Some a => no_backslash a
  | None => true
  end = true ->
  no_backslash (name product) = true ->
  no_backslash (price_range product) = true ->
  no_backslash (description product) = true ->
  no_backslash (amazon_asin product) = true ->
  no_backslash (clickbank_id product) = true ->
  no_backslash (product_card cfg product) = true.
Proof.
  intros Ha Hn Hp Hd Hasin Hcb.
  pose proof (amazon_link_no_backslash cfg (amazon_asin product) EmptyString
                Hasin) as Hal.
  pose proof (clickbank_link_no_backslash cfg (clickbank_id product) Ha Hcb)
    as Hcl.
  unfold product_card. cbv zeta.
  destruct (truthy (amazon_asin product));
    [|destruct (truthy (clickbank_id product)); [|reflexivity]];
    unfold lines, Str.attr; cbn [String.concat];
    rewrite !no_backslash_append, ?Hn, ?Hp, ?Hd, ?Hal, ?Hcl; reflexivity.
Qed.

(** With [backslash_free], the block that [add_product_recommendations]
    hands to [re.sub] as a template has no backslash in it, for whatever
    products of the catalog it is rendered. *)
Lemma backslash_free_section (cfg : Config)
  (products shown : list AffiliateProduct) :
  backslash_free cfg products = true ->
  incl shown products ->
  no_backslash (generate_recommendation_section cfg shown) = true.
Proof.
  unfold backslash_free. intros H Hincl.
  apply andb_true_iff in H as [Ha Hall]. rewrite forallb_forall in Hall.
  rewrite generate_is_rendered. unfold rendered_section.
  rewrite no_backslash_append.
  change (no_backslash recommendation_header) with true. cbv iota.
  simpl andb.
  induction shown as [|p l IH]; [reflexivity|].
  simpl fold_right. rewrite no_backslash_append.
  rewrite IH by (intros q Hq; apply Hincl; now right).
  rewrite andb_true_r.
  specialize (Hall p (Hincl p (or_introl eq_refl))).
  repeat (apply andb_true_iff in Hall as [Hall ?]).
  now apply product_card_no_backslash.
Qed.

(** ** The report flags *)


